(** * DeltAI crawler (deltai_crawler.py): a shallow embedding and its properties

    The crawler's pure helpers ([summarize], [is_allowed], [guess_filename],
    [discover_links], [sha1_text]) are functions on Python strings; the crawl
    loop of [main] is a transition function on an explicit state (frontier
    queue, seen set, visit counter) that logs every effect (fetch, record
    written, asset saved, sleep) in a trace.  Library calls whose result the
    crawler only passes on (requests, readability, BeautifulSoup, pdfminer,
    python-docx, urllib.parse) are fields of an environment record. *)

From Stdlib Require Import ZArith NArith List String Ascii Bool Lia DecimalString QArith_base.
From stdpp Require Import base gmap sets list.

Local Open Scope Z_scope.

(** ** Python strings

    A Python [str] is a sequence of Unicode code points; [len] counts code
    points, so the truncation marker of [summarize] (U+2026) has length 1. *)

Abbreviation str := (list N).
Abbreviation bytes := (list N).

Definition py (s : string) : str := map N_of_ascii (list_ascii_of_string s).

Definition ELLIPSIS : N := 8230%N.
Definition SPACE : N := 32%N.
Definition NEWLINE : N := 10%N.

(** [len(s)] as a Python int. *)
Definition len {A} (s : list A) : Z := Z.of_nat (length s).

(** [str.isspace] on one code point: the characters [str.split()] and
    [str.strip()] treat as white space. *)
Definition is_space (c : N) : bool :=
  ((9 <=? c) && (c <=? 13) || (28 <=? c) && (c <=? 32)
   || (c =? 133) || (c =? 160) || (c =? 5760)
   || (8192 <=? c) && (c <=? 8202)
   || (c =? 8232) || (c =? 8233) || (c =? 8239) || (c =? 8287)
   || (c =? 12288))%N.

(** [s.split()]: the maximal runs of non-space characters, in order.
    [cur] is the (reversed) word being read. *)
Fixpoint split_ws_aux (cur : str) (s : str) : list str :=
  match s with
  | [] => match cur with [] => [] | _ => [rev cur] end
  | c :: s' =>
      if is_space c
      then match cur with
           | [] => split_ws_aux [] s'
           | _ => rev cur :: split_ws_aux [] s'
           end
      else split_ws_aux (c :: cur) s'
  end.

Definition split_ws (s : str) : list str := split_ws_aux [] s.

(** [sep.join(parts)]. *)
Fixpoint join (sep : str) (parts : list str) : str :=
  match parts with
  | [] => []
  | [p] => p
  | p :: rest => p ++ sep ++ join sep rest
  end.

(** [s[:n]] for a Python int [n]: a negative [n] counts from the end. *)
Definition slice_to {A} (n : Z) (s : list A) : list A :=
  if 0 <=? n then take (Z.to_nat n) s
  else take (Z.to_nat (len s + n)) s.

(** [s.strip()]. *)
Fixpoint lstrip (s : str) : str :=
  match s with
  | c :: s' => if is_space c then lstrip s' else s
  | [] => []
  end.

Definition rstrip (s : str) : str := rev (lstrip (rev s)).
Definition strip (s : str) : str := rstrip (lstrip s).

(** ** summarize *)

(** [txt = " ".join((text or "").split())] *)
Definition normalize_ws (text : str) : str := join [SPACE] (split_ws text).

(** [summarize(text, max_chars)]:
    [txt[:max_chars] + ("…" if len(txt) > max_chars else "")]. *)
Definition summarize (text : str) (max_chars : Z) : str :=
  let txt := normalize_ws text in
  slice_to max_chars txt ++ (if max_chars <? len txt then [ELLIPSIS] else []).

(** The marker is the last character of [s]. *)
Definition ends_with_marker (s : str) : Prop := exists pre, s = pre ++ [ELLIPSIS].

(** ** More string operations *)

Definition str_eqb (a b : str) : bool := bool_decide (a = b).

(** [x in l] for a list or set literal of strings. *)
Definition str_in (x : str) (l : list str) : bool := existsb (str_eqb x) l.

Fixpoint startswith (p s : str) : bool :=
  match p, s with
  | [], _ => true
  | a :: p', b :: s' => (a =? b)%N && startswith p' s'
  | _ :: _, [] => false
  end.

Definition endswith (suffix s : str) : bool := startswith (rev suffix) (rev s).

(** [sub in s] (substring test). *)
Fixpoint contains (sub s : str) : bool :=
  startswith sub s || match s with [] => false | _ :: s' => contains sub s' end.

(** [c in s] for one character. *)
Definition has_char (c : N) (s : str) : bool := existsb (N.eqb c) s.

(** [s.partition(c)] without the separator: the text before the first [c]
    and, when there is one, the text after it. *)
Fixpoint cut_at (c : N) (s : str) : str * option str :=
  match s with
  | [] => ([], None)
  | x :: s' =>
      if (x =? c)%N then ([], Some s')
      else let '(a, b) := cut_at c s' in (x :: a, b)
  end.

(** [s.lower()].  Only A-Z are mapped: every use in the crawler compares the
    result with ASCII constants, and the code points Python maps differently
    (outside ASCII) neither are nor become characters of those constants. *)
Definition lower_char (c : N) : N :=
  if ((65 <=? c) && (c <=? 90))%N then (c + 32)%N else c.
Definition lower (s : str) : str := map lower_char s.

Definition is_ascii_alpha (c : N) : bool :=
  ((65 <=? c) && (c <=? 90) || (97 <=? c) && (c <=? 122))%N.
Definition is_digit (c : N) : bool := ((48 <=? c) && (c <=? 57))%N.

(** ** Results of calls that may raise

    [Raise msg] carries [str(e)] of the exception. *)
Inductive result (A : Type) : Type :=
| Raise (msg : str)
| Return (a : A).
Arguments Raise {A} msg.
Arguments Return {A} a.

Definition bind {A B} (r : result A) (k : A -> result B) : result B :=
  match r with Raise m => Raise m | Return a => k a end.

(** [try: body except: handler] *)
Definition try_except {A} (body : result A) (handler : str -> A) : A :=
  match body with Raise m => handler m | Return a => a end.

(** ** Regular expressions (the fragment of [re] the crawler uses)

    Quantifiers only ever apply to a single character class in the source's
    patterns, so [Star] and [Plus] take a class.  [Group1] is the pattern's
    first capturing group where the source reads [group(1)]; groups whose
    text is never read are written as their bodies. *)
Inductive re : Type :=
| Chr (c : N)                 (* a literal character *)
| Cls (p : N -> bool)         (* a character class *)
| Seq (a b : re)
| Alt (a b : re)
| Opt (a : re)                (* a? (greedy) *)
| Star (p : N -> bool)        (* [p]* (greedy) *)
| Plus (p : N -> bool)        (* [p]+ (greedy) *)
| Group1 (a : re)
| Eol.                        (* $ *)

(** A literal character under [re.I]: besides the two ASCII cases, [re]
    matches i with U+0130 and U+0131, s with U+017F and k with U+212A. *)
Definition chr_match (ignorecase : bool) (p c : N) : bool :=
  (c =? p)%N ||
  ignorecase &&
    ((97 <=? p) && (p <=? 122) && (c =? p - 32)
     || (p =? 105) && ((c =? 304) || (c =? 305))
     || (p =? 115) && (c =? 383)
     || (p =? 107) && (c =? 8490))%N.

(** [.] without DOTALL. *)
Definition dot (c : N) : bool := negb (c =? NEWLINE)%N.

(** [$] without MULTILINE: at the end, or before a final newline. *)
Definition at_eol (s : str) : bool :=
  match s with [] => true | [c] => (c =? NEWLINE)%N | _ => false end.

(** The remainders after [p]*, longest match first. *)
Fixpoint star_rems (p : N -> bool) (s : str) : list str :=
  match s with
  | c :: s' => if p c then star_rems p s' ++ [s] else [s]
  | [] => [[]]
  end.

(** All ways [r] matches a prefix of [s], in the order a backtracking
    matcher tries them: the text of group 1 (if set) and the remainder.
    [cap] is the capture so far. *)
Fixpoint re_match (ic : bool) (r : re) (cap : option str) (s : str)
  : list (option str * str) :=
  match r with
  | Chr p => match s with
             | c :: s' => if chr_match ic p c then [(cap, s')] else []
             | [] => []
             end
  | Cls p => match s with
             | c :: s' => if p c then [(cap, s')] else []
             | [] => []
             end
  | Seq a b => flat_map (fun '(cap1, s1) => re_match ic b cap1 s1) (re_match ic a cap s)
  | Alt a b => re_match ic a cap s ++ re_match ic b cap s
  | Opt a => re_match ic a cap s ++ [(cap, s)]
  | Star p => map (pair cap) (star_rems p s)
  | Plus p => match s with
              | c :: s' => if p c then map (pair cap) (star_rems p s') else []
              | [] => []
              end
  | Group1 a =>
      map (fun '(_, s1) => (Some (take (length s - length s1) s), s1))
          (re_match ic a cap s)
  | Eol => if at_eol s then [(cap, s)] else []
  end.

(** [re.search(r, s)]: the first match at the leftmost position where there
    is one, as its group 1; [None] when nothing matches. *)
Fixpoint re_search (ic : bool) (r : re) (s : str) : option (option str) :=
  match re_match ic r None s with
  | (cap, _) :: _ => Some cap
  | [] => match s with
          | [] => None
          | _ :: s' => re_search ic r s'
          end
  end.

(** A literal string and an alternation of patterns. *)
Fixpoint lit (s : str) : re :=
  match s with
  | [] => Opt Eol   (* not used: literals are non-empty *)
  | [c] => Chr c
  | c :: s' => Seq (Chr c) (lit s')
  end.

Fixpoint alts (rs : list re) : re :=
  match rs with
  | [] => Cls (fun _ => false)
  | [r] => r
  | r :: rs' => Alt r (alts rs')
  end.

(** [re.sub("[p]+", repl, s)]: every maximal run of characters of the class
    is replaced by [repl]; [in_run] tells that the previous character was
    part of a run. *)
Fixpoint sub_runs (p : N -> bool) (repl : str) (in_run : bool) (s : str) : str :=
  match s with
  | [] => []
  | c :: s' =>
      if p c then (if in_run then [] else repl) ++ sub_runs p repl true s'
      else c :: sub_runs p repl false s'
  end.

(** [s.replace(old, new)] for a non-empty [old]; [skip] counts the characters
    of an occurrence that are still to be passed over. *)
Fixpoint replace_from (old new : str) (skip : nat) (s : str) : str :=
  match s with
  | [] => []
  | c :: s' =>
      match skip with
      | S k => replace_from old new k s'
      | O => if startswith old s
             then new ++ replace_from old new (length old - 1) s'
             else c :: replace_from old new 0 s'
      end
  end.
Definition replace (old new s : str) : str := replace_from old new 0 s.

(** [list(dict.fromkeys(l))]: duplicates removed, first occurrences kept in
    order. *)
Fixpoint fromkeys (l : list str) : list str :=
  match l with
  | [] => []
  | x :: l' => x :: filter (fun y => negb (str_eqb x y)) (fromkeys l')
  end.

(** [str(n)] for a Python int. *)
Definition str_of_Z (n : Z) : str :=
  py (NilZero.string_of_int (Z.to_int n)).

(** ** The environment: the web and the libraries

    Everything the crawler obtains from outside its own source. *)

Record Response := {
  status_code : Z;
  headers : list (str * str);   (* r.headers, keys matched case-insensitively *)
  content : bytes;              (* r.content *)
  r_text : str                  (* r.text *)
}.

(** The outcomes of [urllib.request.urlopen] in [RobotFileParser.read]. *)
Inductive urlopen_result : Type :=
| UrlopenBody (raw : bytes)        (* a response, body read *)
| UrlopenHTTPError (code : Z)      (* urllib.error.HTTPError *)
| UrlopenRaises (msg : str).       (* URLError, timeout, ... *)

Record Env := {
  (* urllib.parse: the netloc checks of urlsplit beyond the bracket test
     ([Some msg]: ValueError), and urljoin *)
  netloc_error : str -> option str;
  urljoin : str -> str -> result str;
  (* requests.get(url, ...) as the n-th request of the run *)
  requests_get : nat -> str -> result Response;
  (* datetime.datetime.utcnow().isoformat() after the n-th request *)
  utcnow : nat -> str;
  (* bytes.decode("utf-8", "ignore") and bytes.decode("utf-8") *)
  decode_ignore : bytes -> str;
  decode_strict : bytes -> result str;
  (* readability: Document(html).short_title() or "" ; and the text of
     Document(html).summary() after Cleaner and BeautifulSoup *)
  doc_short_title : str -> result str;
  doc_article_text : str -> result str;
  (* BeautifulSoup(html, "html.parser"): get_text(" ", strip=True) and the
     href of every <a href=...> *)
  soup_get_text : str -> str;
  soup_hrefs : str -> list str;
  (* BeautifulSoup(xml, "xml"): loc.text or "" of every <loc> *)
  soup_locs : str -> result (list str);
  (* pdfminer's extract_text(...) or "" ; python-docx's paragraph texts *)
  pdf_extract_text : bytes -> result str;
  docx_paragraphs : bytes -> result (list str);
  (* urllib.robotparser: what urlopen gives for a robots.txt URL, the clock,
     and the rule matching of can_fetch on a parsed robots.txt *)
  urlopen : str -> urlopen_result;
  time_time : Z;
  rules_can_fetch : list str -> str -> str -> result bool;
  splitlines : str -> list str
}.

(** ** urllib.parse.urlparse (CPython 3.11) *)

Record ParseResult := {
  scheme : str; netloc : str; path : str;
  params : str; query : str; fragment : str
}.

Definition uses_params : list str :=
  map py [""; "ftp"; "hdl"; "prospero"; "http"; "imap"; "https"; "shttp";
          "rtsp"; "rtspu"; "sip"; "sips"; "mms"; "sftp"; "tel"]%string.

Definition scheme_char (c : N) : bool :=
  is_ascii_alpha c || is_digit c || has_char c (py "+-.").

Fixpoint lstrip_by (p : N -> bool) (s : str) : str :=
  match s with
  | c :: s' => if p c then lstrip_by p s' else s
  | [] => []
  end.

Definition C0_CONTROL_OR_SPACE (c : N) : bool := (c <=? 32)%N.
Definition UNSAFE_URL_BYTE (c : N) : bool :=
  ((c =? 9) || (c =? 13) || (c =? 10))%N.

(** The scheme, when the text before the first ':' is one. *)
Definition split_scheme (url : str) : str * str :=
  match cut_at 58%N url with
  | (c0 :: pre, Some rest) =>
      if is_ascii_alpha c0 && forallb scheme_char (c0 :: pre)
      then (lower (c0 :: pre), rest)
      else ([], url)
  | _ => ([], url)
  end.

(** [_splitnetloc(url, 2)] on the text after "//": up to the first of
    '/', '?', '#'. *)
Fixpoint splitnetloc (s : str) : str * str :=
  match s with
  | [] => ([], [])
  | c :: s' =>
      if has_char c (py "/?#") then ([], s)
      else let '(n, rest) := splitnetloc s' in (c :: n, rest)
  end.

Definition LBRACKET : N := 91%N.
Definition RBRACKET : N := 93%N.

Definition urlsplit (E : Env) (url0 : str) : result (str * str * str * str * str) :=
  let url := lstrip_by C0_CONTROL_OR_SPACE url0 in
  let url := filter (fun c => negb (UNSAFE_URL_BYTE c)) url in
  let '(scheme, url) := split_scheme url in
  let '(netloc, url) :=
    if startswith (py "//") url then splitnetloc (drop 2 url) else ([], url) in
  if xorb (has_char LBRACKET netloc) (has_char RBRACKET netloc)
  then Raise (py "Invalid IPv6 URL")
  else
    let '(url, fragment) := cut_at 35%N url in
    let '(url, query) := cut_at 63%N url in
    match netloc_error E netloc with
    | Some msg => Raise msg
    | None => Return (scheme, netloc, url, default [] query, default [] fragment)
    end.

(** [_splitparams(url)]: the first ';' of the last path segment. *)
Definition splitparams (url : str) : str * str :=
  match cut_at 47%N (rev url) with
  | (rlast, Some rhead) =>
      match cut_at 59%N (rev rlast) with
      | (a, Some b) => (rev rhead ++ 47%N :: a, b)
      | (_, None) => (url, [])
      end
  | (_, None) =>
      let '(a, b) := cut_at 59%N url in (a, default [] b)
  end.

Definition urlparse (E : Env) (url : str) : result ParseResult :=
  bind (urlsplit E url) (fun '(scheme, netloc, url, query, fragment) =>
    let '(url, params) :=
      if str_in scheme uses_params && has_char 59%N url
      then splitparams url else (url, []) in
    Return {| scheme := scheme; netloc := netloc; path := url;
              params := params; query := query; fragment := fragment |}).

(** [p.hostname]: the netloc without user information and port, lower-cased
    ([None] when empty). *)
Definition hostname (p : ParseResult) : option str :=
  let hostinfo :=
    match cut_at 64%N (rev (netloc p)) with
    | (rhost, _) => rev rhost
    end in
  let host :=
    match cut_at LBRACKET hostinfo with
    | (_, Some bracketed) => fst (cut_at RBRACKET bracketed)
    | (_, None) => fst (cut_at 58%N hostinfo)
    end in
  match host with
  | [] => None
  | _ => let '(h, zone) := cut_at 37%N host in
         Some (lower h ++ match zone with Some z => 37%N :: z | None => [] end)
  end.

(** ** Scope filter *)

Definition ALLOWED_NETLOCS : list str := [py "deltawonen.nl"; py "www.deltawonen.nl"].
Definition USER_AGENT : str := py "DeltAI-Scraper/1.0".
Definition DEFAULT_START : list str := [py "https://www.deltawonen.nl/"].
Definition SITEMAPS : list str := [py "https://www.deltawonen.nl/sitemap.xml"].

(** The pattern of [is_allowed]: a dot, one of the extensions
    [jpg|jpeg|png|gif|svg|webp|ico|css|js|woff2?|ttf|eot|mp4|webm|zip|rar],
    optionally a question mark with any characters after it, then [$].
    The alternatives are kept in the pattern's order; [woff2?] is the one
    that is not a plain literal. *)
Definition EXTS_BEFORE_WOFF : list str :=
  map py ["jpg"; "jpeg"; "png"; "gif"; "svg"; "webp"; "ico"; "css"; "js"]%string.
Definition EXTS_AFTER_WOFF : list str :=
  map py ["ttf"; "eot"; "mp4"; "webm"; "zip"; "rar"]%string.

Definition WOFF_RE : re := Seq (lit (py "woff")) (Opt (Chr 50%N)).

Definition EXT_ALTS : list re :=
  map lit EXTS_BEFORE_WOFF ++ [WOFF_RE] ++ map lit EXTS_AFTER_WOFF.

Definition QUERY_EOL : re := Seq (Opt (Seq (Chr 63%N) (Star dot))) Eol.

Definition DENY_RE : re := Seq (Chr 46%N) (Seq (alts EXT_ALTS) QUERY_EOL).

(** The extensions the pattern denies, as strings. *)
Definition DENY_EXTS : list str :=
  EXTS_BEFORE_WOFF ++ [py "woff"; py "woff2"] ++ EXTS_AFTER_WOFF.

Definition is_allowed (E : Env) (url : str) : bool :=
  try_except
    (bind (urlparse E url) (fun p =>
       if negb (str_in (scheme p) [py "http"; py "https"]) then Return false
       else if negb (str_in (lower (netloc p)) ALLOWED_NETLOCS) then Return false
       else if bool_decide (is_Some (re_search true DENY_RE (path p))) then Return false
       else Return true))
    (fun _ => false).

(** ** sha1_text

    [hashlib.sha1(s.encode("utf-8", "ignore")).hexdigest()]: UTF-8 with
    lone surrogates dropped, SHA-1 (FIPS 180-4) on 32-bit words held in [N],
    and the digest as 40 lower-case hexadecimal digits. *)

Definition utf8_char (c : N) : bytes :=
  (if c <? 128 then [c]
   else if c <? 2048 then [N.lor 192 (N.shiftr c 6); N.lor 128 (N.land c 63)]
   else if (55296 <=? c) && (c <=? 57343) then []
   else if c <? 65536 then
     [N.lor 224 (N.shiftr c 12); N.lor 128 (N.land (N.shiftr c 6) 63);
      N.lor 128 (N.land c 63)]
   else
     [N.lor 240 (N.land (N.shiftr c 18) 7); N.lor 128 (N.land (N.shiftr c 12) 63);
      N.lor 128 (N.land (N.shiftr c 6) 63); N.lor 128 (N.land c 63)])%N.

Definition encode_utf8_ignore (s : str) : bytes := flat_map utf8_char s.

Module SHA1.
Local Open Scope N_scope.

Definition mask32 : N := 4294967295.
Definition w32 (x : N) : N := N.land x mask32.
Definition add32 (x y : N) : N := w32 (x + y).
Definition rotl (n x : N) : N :=
  w32 (N.lor (N.shiftl x n) (N.shiftr (w32 x) (32 - n))).
Definition not32 (x : N) : N := N.lxor (w32 x) mask32.

(** The message followed by 0x80, zeros up to 56 mod 64, and the bit
    length as 8 big-endian bytes. *)
Definition be_bytes (n : nat) (x : N) : bytes :=
  map (fun i => N.land (N.shiftr x (8 * N.of_nat i)) 255) (rev (seq 0 n)).

Definition pad (msg : bytes) : bytes :=
  let l := N.of_nat (length msg) in
  let zeros := N.to_nat ((64 + 55 - l mod 64) mod 64) in
  msg ++ [128] ++ repeat 0 zeros ++ be_bytes 8 (8 * l).

Fixpoint chunks (fuel : nat) (n : nat) (l : bytes) : list bytes :=
  match fuel with
  | O => []
  | S f => match l with
           | [] => []
           | _ => take n l :: chunks f n (drop n l)
           end
  end.

Definition be_word (b : bytes) : N :=
  fold_left (fun acc x => N.lor (N.shiftl acc 8) (N.land x 255)) b 0.

Definition block_words (blk : bytes) : list N :=
  map be_word (chunks 16 4 blk).

(** W[t] = rotl1 (W[t-3] xor W[t-8] xor W[t-14] xor W[t-16]) for t >= 16. *)
Fixpoint schedule (n : nat) (w : list N) : list N :=
  match n with
  | O => w
  | S n' =>
      let t := length w in
      let g i := nth (t - i) w 0 in
      schedule n' (w ++ [rotl 1 (N.lxor (N.lxor (g 3%nat) (g 8%nat))
                                        (N.lxor (g 14%nat) (g 16%nat)))])
  end.

Definition state : Type := N * N * N * N * N.

Definition round (t : nat) (wt : N) (s : state) : state :=
  let '(a, b, c, d, e) := s in
  let '(f, k) :=
    if (t <? 20)%nat then (N.lor (N.land b c) (N.land (not32 b) d), 1518500249)
    else if (t <? 40)%nat then (N.lxor (N.lxor b c) d, 1859775393)
    else if (t <? 60)%nat then
      (N.lor (N.lor (N.land b c) (N.land b d)) (N.land c d), 2400959708)
    else (N.lxor (N.lxor b c) d, 3395469782) in
  let tmp := add32 (add32 (add32 (add32 (rotl 5 a) f) e) k) wt in
  (tmp, a, rotl 30 b, c, d).

Fixpoint rounds (t : nat) (ws : list N) (s : state) : state :=
  match ws with
  | [] => s
  | w :: ws' => rounds (S t) ws' (round t w s)
  end.

Definition compress (h : state) (blk : bytes) : state :=
  let '(h0, h1, h2, h3, h4) := h in
  let '(a, b, c, d, e) := rounds 0 (schedule 64 (block_words blk)) h in
  (add32 h0 a, add32 h1 b, add32 h2 c, add32 h3 d, add32 h4 e).

Definition init : state :=
  (1732584193, 4023233417, 2562383102, 271733878, 3285377520).

Definition digest (msg : bytes) : state :=
  let p := pad msg in
  fold_left compress (chunks (length p) 64 p) init.

Definition hex_digit (d : N) : N := if d <? 10 then 48 + d else 87 + d.

Definition hex8 (w : N) : str :=
  [hex_digit (N.land (N.shiftr w 28) 15); hex_digit (N.land (N.shiftr w 24) 15);
   hex_digit (N.land (N.shiftr w 20) 15); hex_digit (N.land (N.shiftr w 16) 15);
   hex_digit (N.land (N.shiftr w 12) 15); hex_digit (N.land (N.shiftr w 8) 15);
   hex_digit (N.land (N.shiftr w 4) 15); hex_digit (N.land w 15)].

Definition hexdigest (msg : bytes) : str :=
  let '(h0, h1, h2, h3, h4) := digest msg in
  hex8 h0 ++ hex8 h1 ++ hex8 h2 ++ hex8 h3 ++ hex8 h4.
End SHA1.

Definition sha1_text (s : str) : str := SHA1.hexdigest (encode_utf8_ignore s).

(** ** Robots policy (urllib.robotparser.RobotFileParser)

    The fields [can_fetch] tests before it looks at any rule, as the library
    has them; the parsed rules are kept as the lines given to [parse], and
    matching a URL against them is the environment's [rules_can_fetch]. *)

Record RobotFileParser := {
  rp_url : str;
  disallow_all : bool;
  allow_all : bool;
  last_checked : Z;      (* time of the last parse, 0 before any *)
  entries : list str
}.

(** [RobotFileParser()] followed by [set_url(url)]. *)
Definition new_parser (url : str) : RobotFileParser :=
  {| rp_url := url; disallow_all := false; allow_all := false;
     last_checked := 0; entries := [] |}.

(** [rp.parse(lines)]: calls [modified()], then records the rules. *)
Definition rp_parse (E : Env) (lines : list str) (rp : RobotFileParser) : RobotFileParser :=
  {| rp_url := rp_url rp; disallow_all := disallow_all rp; allow_all := allow_all rp;
     last_checked := time_time E; entries := lines |}.

(** [rp.read()]: an HTTPError sets a flag (401/403: disallow all, other 4xx:
    allow all); any other exception of urlopen, and a body that is not
    UTF-8, propagate with the parser unchanged. *)
Definition rp_read (E : Env) (rp : RobotFileParser) : result RobotFileParser :=
  match urlopen E (rp_url rp) with
  | UrlopenRaises msg => Raise msg
  | UrlopenHTTPError code =>
      if (code =? 401) || (code =? 403) then
        Return {| rp_url := rp_url rp; disallow_all := true; allow_all := allow_all rp;
                  last_checked := last_checked rp; entries := entries rp |}
      else if (400 <=? code) && (code <? 500) then
        Return {| rp_url := rp_url rp; disallow_all := disallow_all rp; allow_all := true;
                  last_checked := last_checked rp; entries := entries rp |}
      else Return rp
  | UrlopenBody raw =>
      bind (decode_strict E raw) (fun txt => Return (rp_parse E (splitlines E txt) rp))
  end.

(** [rp.can_fetch(useragent, url)] *)
Definition can_fetch (E : Env) (rp : RobotFileParser) (useragent url : str) : result bool :=
  if disallow_all rp then Return false
  else if allow_all rp then Return true
  else if last_checked rp =? 0 then Return false
  else rules_can_fetch E (entries rp) useragent url.

(** [get_robot_parser(root)]: [try: rp.read() except: pass]. *)
Definition get_robot_parser (E : Env) (root : str) : result RobotFileParser :=
  bind (urljoin E root (py "/robots.txt")) (fun u =>
    let rp := new_parser u in
    Return (try_except (rp_read E rp) (fun _ => rp))).

(** The closure [allowed_by_robots] of [main]:
    [try: return rp.can_fetch(USER_AGENT, u) except: return True]. *)
Definition allowed_by_robots (E : Env) (rp : RobotFileParser) (u : str) : bool :=
  try_except (can_fetch E rp USER_AGENT u) (fun _ => true).

(** ** Fetching and extraction *)

(** [r.headers.get(key, "")] on requests' case-insensitive headers; [key] is
    given in lower case. *)
Fixpoint ci_get (key : str) (h : list (str * str)) : str :=
  match h with
  | [] => []
  | (k, v) :: h' => if str_eqb (lower k) key then v else ci_get key h'
  end.

(** [fetch(url)]: status, content type, body and [dict(r.headers)]. *)
Definition fetch (E : Env) (n : nat) (url : str)
  : result (Z * str * bytes * gmap str str) :=
  bind (requests_get E n url) (fun r =>
    Return (status_code r, ci_get (py "content-type") (headers r), content r,
            list_to_map (headers r))).

Definition sitemap_urls (E : Env) (n : nat) (sm : str) : list str :=
  try_except
    (bind (requests_get E n sm) (fun r =>
       if (status_code r =? 200)
          && contains (py "xml") (ci_get (py "content-type") (headers r))
       then bind (soup_locs E (r_text r)) (fun locs =>
              Return (filter (fun u => is_allowed E u) (map strip locs)))
       else Return []))
    (fun _ => []).

Definition get_sitemap_urls (E : Env) : list str :=
  fromkeys (concat (imap (fun n sm => sitemap_urls E n sm) SITEMAPS)).

Definition clean_html_to_text (E : Env) (html : str) : result (str * str) :=
  bind (doc_short_title E html) (fun t =>
  bind (doc_article_text E html) (fun text =>
  Return (strip t, text))).

Definition extract_pdf_text (E : Env) (content : bytes) : str :=
  try_except (pdf_extract_text E content)
    (fun e => py "[[PDF extract failed: " ++ e ++ py "]]").

Definition extract_docx_text (E : Env) (content : bytes) : str :=
  try_except
    (bind (docx_paragraphs E content) (fun ps => Return (join [NEWLINE] ps)))
    (fun e => py "[[DOCX extract failed: " ++ e ++ py "]]").

(** [os.path.basename(p)] (POSIX): the text after the last '/'. *)
Definition basename (p : str) : str := rev (fst (cut_at 47%N (rev p))).

(** The pattern of [guess_filename]: [filename=], an optional double quote,
    group 1 of one or more characters other than a double quote, an optional
    double quote. *)
Definition not_quote (c : N) : bool := negb (c =? 34)%N.
Definition FILENAME_RE : re :=
  Seq (lit (py "filename="))
    (Seq (Opt (Chr 34%N)) (Seq (Group1 (Plus not_quote)) (Opt (Chr 34%N)))).

(** A character kept by [guess_filename]: [A-Za-z0-9._-]. *)
Definition safe_char (c : N) : bool :=
  is_ascii_alpha c || is_digit c || has_char c (py "._-").

Definition guess_filename (E : Env) (url : str) (hdrs : gmap str str) : result str :=
  bind (urlparse E url) (fun p =>
    let name := match basename (path p) with [] => py "download" | b => b end in
    let cd := match hdrs !! py "Content-Disposition" with
              | Some (c :: v) => c :: v
              | _ => default [] (hdrs !! py "content-disposition")
              end in
    let name := match re_search false FILENAME_RE cd with
                | Some (Some g) => g
                | _ => name
                end in
    Return (sub_runs (fun c => negb (safe_char c)) (py "_") false name)).

(** A loop whose body may raise: the first exception ends it. *)
Fixpoint map_result {A B} (f : A -> result B) (l : list A) : result (list B) :=
  match l with
  | [] => Return []
  | x :: l' => bind (f x) (fun y => bind (map_result f l') (fun ys => Return (y :: ys)))
  end.

(** [absolutize(base, href)] *)
Definition absolutize (E : Env) (base href : str) : result str :=
  urljoin E base (strip href).

Definition discover_links (E : Env) (base_url html : str) : result (list str) :=
  bind (map_result (absolutize E base_url) (soup_hrefs E html)) (fun us =>
    Return (fromkeys (filter (fun u => is_allowed E u) us))).

Definition html_is_article (text : str) : bool := 50 <=? len (split_ws text).

(** The pattern of the [--include-docs] branch: a dot, [doc|xls|ppt], an
    optional [x], then [$]. *)
Definition DOCS_RE : re :=
  Seq (Chr 46%N)
    (Seq (alts [lit (py "doc"); lit (py "xls"); lit (py "ppt")])
       (Seq (Opt (Chr 120%N)) Eol)).

(** ** Records, effects and the state of the crawl loop *)

Record PageItem := {
  url : str;
  content_type : str;
  title : str;
  text : str;
  status : Z;
  fetched_at : str;
  sha1 : str;
  links : list str
}.

Record QAItem := {
  question : str;
  answer : str;
  tags : list str;
  sources : list str
}.

(** What [main] does to the outside world, in the order it does it. *)
Inductive Event : Type :=
| EvRobots (u : str)                  (* rp.read() of robots.txt at u *)
| EvSitemap (u : str)                 (* requests.get of a sitemap *)
| EvFetch (u : str)                   (* fetch(u) *)
| EvPage (p : PageItem)               (* a line appended to raw_pages.jsonl *)
| EvQA (r : QAItem)                   (* a line appended to qa.jsonl *)
| EvAsset (fname : str) (data : bytes) (* a file written under data/assets *)
| EvSleep (d : Q).                    (* time.sleep(d) *)

Record Args := {
  start : list str;
  max_pages : Z;
  delay : Q;
  include_docs : bool
}.

Record State := {
  queue : list str;       (* q, oldest first *)
  seen : gset str;
  count : Z;
  nreq : nat;             (* requests made so far *)
  log : list Event        (* oldest first *)
}.

Definition raw_pages (l : list Event) : list PageItem :=
  omap (fun e => match e with EvPage p => Some p | _ => None end) l.
Definition qa_records (l : list Event) : list QAItem :=
  omap (fun e => match e with EvQA r => Some r | _ => None end) l.
Definition fetched (l : list Event) : list str :=
  omap (fun e => match e with EvFetch u => Some u | _ => None end) l.

Definition nonempty {A} (s : list A) : bool := match s with [] => false | _ => true end.

(** ** The crawl loop of main *)

Section Crawl.
Context (E : Env) (args : Args) (rp : RobotFileParser).

(** The record of the [except] branch around [fetch]. *)
Definition fetch_error_item (u e now : str) : PageItem :=
  {| url := u; content_type := py "error"; title := [];
     text := py "[[FETCH ERROR: " ++ e ++ py "]]"; status := 0;
     fetched_at := now; sha1 := []; links := [] |}.

(** The record of the [else] branch of [if status==200]. *)
Definition http_error_item (u : str) (st : Z) (now : str) : PageItem :=
  {| url := u; content_type := py "error"; title := [];
     text := py "HTTP " ++ str_of_Z st; status := st;
     fetched_at := now; sha1 := []; links := [] |}.

Definition qa_item (q a kind u : str) : QAItem :=
  {| question := q; answer := a; tags := [py "deltawonen"; kind]; sources := [u] |}.

(** The link filter of the HTML branch:
    [u2 not in seen and is_allowed(u2) and allowed_by_robots(u2)]. *)
Definition enqueue_ok (sn : gset str) (u2 : str) : bool :=
  negb (bool_decide (u2 ∈ sn)) && is_allowed E u2 && allowed_by_robots E rp u2.

(** The body of the loop after a fetch that returned: the URLs put on the
    queue and the effects, in order. *)
Definition process (sn : gset str) (u : str) (st : Z) (ctype : str)
    (body : bytes) (hdrs : gmap str str) (now : str)
  : result (list str * list Event) :=
  let ctype_low := lower ctype in
  if st =? 200 then
    if contains (py "text/html") ctype_low then
      let html := decode_ignore E body in
      bind (clean_html_to_text E html) (fun '(ttl, txt0) =>
      let txt := if html_is_article txt0 then txt0 else soup_get_text E html in
      bind (discover_links E u html) (fun lnks =>
      Return
        (filter (fun u2 => enqueue_ok sn u2) lnks,
         EvPage {| url := u; content_type := py "html"; title := ttl; text := txt;
                   status := st; fetched_at := now; sha1 := sha1_text txt;
                   links := lnks |}
         :: (if nonempty ttl && nonempty txt
             then [EvQA (qa_item ttl (summarize txt 1000) (py "html") u)]
             else []))))
    else if contains (py "application/pdf") ctype_low
            || endswith (py ".pdf") (lower u) then
      bind (guess_filename E u hdrs) (fun fname =>
      let txt := extract_pdf_text E body in
      Return
        ([],
         [EvAsset fname body;
          EvPage {| url := u; content_type := py "pdf"; title := fname; text := txt;
                    status := st; fetched_at := now; sha1 := sha1_text txt;
                    links := [] |};
          EvQA (qa_item (strip (replace (py "_") (py " ") (replace (py ".pdf") [] fname)))
                        (summarize txt 1000) (py "pdf") u)]))
    else if contains
              (py "application/vnd.openxmlformats-officedocument.wordprocessingml.document")
              ctype_low
            || endswith (py ".docx") (lower u) then
      bind (guess_filename E u hdrs) (fun fname =>
      let txt := extract_docx_text E body in
      Return
        ([],
         [EvAsset fname body;
          EvPage {| url := u; content_type := py "docx"; title := fname; text := txt;
                    status := st; fetched_at := now; sha1 := sha1_text txt;
                    links := [] |};
          EvQA (qa_item (strip (replace (py "_") (py " ") (replace (py ".docx") [] fname)))
                        (summarize txt 1000) (py "docx") u)]))
    else
      bind (if include_docs args && bool_decide (is_Some (re_search true DOCS_RE u))
            then bind (guess_filename E u hdrs) (fun fname =>
                   Return [EvAsset fname body])
            else Return [])
        (fun saved =>
      Return
        ([],
         saved ++
         [EvPage {| url := u; content_type := ctype_low; title := []; text := [];
                    status := st; fetched_at := now; sha1 := []; links := [] |}]))
  else
    Return ([], [EvPage (http_error_item u st now)]).

(** [not q.empty() and count < args.max_pages] *)
Definition loop_cond (s : State) : bool :=
  nonempty (queue s) && (count s <? max_pages args).

(** One iteration of the [while] loop; [Raise]: an exception nothing
    catches, which ends the run. *)
Definition loop_body (s : State) : result State :=
  match queue s with
  | [] => Return s
  | u :: rest =>
      if bool_decide (u ∈ seen s) then
        Return {| queue := rest; seen := seen s; count := count s;
                  nreq := nreq s; log := log s |}
      else
        let sn := {[u]} ∪ seen s in
        let now := utcnow E (nreq s) in
        match fetch E (nreq s) u with
        | Raise e =>
            Return {| queue := rest; seen := sn; count := count s;
                      nreq := S (nreq s);
                      log := log s ++ [EvFetch u; EvPage (fetch_error_item u e now)] |}
        | Return (st, ctype, body, hdrs) =>
            bind (process sn u st ctype body hdrs now) (fun '(puts, evs) =>
            Return {| queue := rest ++ puts; seen := sn; count := count s + 1;
                      nreq := S (nreq s);
                      log := log s ++ EvFetch u :: evs ++ [EvSleep (delay args)] |})
        end
  end.

(** At most [fuel] iterations of the loop. *)
Fixpoint crawl_loop (fuel : nat) (s : State) : result State :=
  match fuel with
  | O => Return s
  | S fuel' =>
      if loop_cond s then bind (loop_body s) (crawl_loop fuel') else Return s
  end.
End Crawl.

(** The start of [main]: the robots parser and the seeded queue. *)
Definition seed_ok (E : Env) (rp : RobotFileParser) (u : str) : bool :=
  is_allowed E u && allowed_by_robots E rp u.

Definition main_init (E : Env) (args : Args) : result (RobotFileParser * State) :=
  match start args with
  | [] => Raise (py "list index out of range")
  | root :: _ =>
      bind (get_robot_parser E root) (fun rp =>
      Return
        (rp,
         {| queue := filter (fun u => seed_ok E rp u) (get_sitemap_urls E ++ start args);
            seen := ∅; count := 0; nreq := length SITEMAPS;
            log := EvRobots (rp_url rp) :: map EvSitemap SITEMAPS |}))
  end.

(** [main()] cut off after [fuel] iterations of the loop. *)
Definition main (E : Env) (args : Args) (fuel : nat) : result State :=
  bind (main_init E args) (fun '(rp, s0) => crawl_loop E args rp fuel s0).

(** ** A small site to run the crawler on

    Seven pages under https://www.deltawonen.nl/: the start page links to
    the others (and to one page of another site); robots.txt answers 404
    and the sitemap lists the start page.  Page bodies are short tags, and
    the library functions of this environment read them by table. *)
Module Demo.
Definition site (p : string) : str := py "https://www.deltawonen.nl" ++ py p.

Definition root : str := site "/".
Definition page_a : str := site "/a".
Definition page_c : str := site "/c".
Definition page_down : str := site "/down".
Definition page_missing : str := site "/missing".
Definition page_pdf : str := site "/b.pdf".
Definition page_empty : str := site "/empty".
Definition external : str := py "https://example.test/x".

Definition html_headers : list (str * str) := [(py "Content-Type", py "text/html; charset=utf-8")].
Definition pdf_headers : list (str * str) := [(py "Content-Type", py "application/pdf")].

Definition response (st : Z) (h : list (str * str)) (body : string) : Response :=
  {| status_code := st; headers := h; content := py body; r_text := py body |}.

Definition get (n : nat) (u : str) : result Response :=
  if str_eqb u root then Return (response 200 html_headers "root")
  else if str_eqb u page_a then Return (response 200 html_headers "a")
  else if str_eqb u page_c then Return (response 200 html_headers "c")
  else if str_eqb u page_empty then Return (response 200 html_headers "empty")
  else if str_eqb u page_pdf then Return (response 200 pdf_headers "%PDF")
  else if str_eqb u page_missing then Return (response 404 html_headers "gone")
  else if str_eqb u (py "https://www.deltawonen.nl/sitemap.xml")
  then Return (response 200 [(py "content-type", py "application/xml")] "sitemap")
  else Raise (py "connection timed out").

Definition hrefs (html : str) : list str :=
  if str_eqb html (py "root")
  then [page_a; page_down; page_missing; page_pdf; page_empty; page_c; external]
  else if str_eqb html (py "a") then [page_c]
  else [].

Definition words (n : nat) : str := join [SPACE] (repeat (py "woord") n).

Definition env : Env :=
  {| netloc_error := fun _ => None;
     urljoin := fun base href =>
       Return (if startswith (py "/") href then py "https://www.deltawonen.nl" ++ href
               else href);
     requests_get := get;
     utcnow := fun n => py "2024-05-01T12:00:0" ++ str_of_Z (Z.of_nat n);
     decode_ignore := fun b => b;
     decode_strict := fun b => Return b;
     doc_short_title := fun html =>
       Return (if str_eqb html (py "empty") then [] else py "Titel " ++ html);
     doc_article_text := fun html =>
       Return (if str_eqb html (py "empty") then [] else words 60);
     soup_get_text := fun html => if str_eqb html (py "empty") then [] else html;
     soup_hrefs := hrefs;
     soup_locs := fun _ => Return [root];
     pdf_extract_text := fun _ => Return [];
     docx_paragraphs := fun _ => Return [];
     urlopen := fun _ => UrlopenHTTPError 404;
     time_time := 1714564800;
     rules_can_fetch := fun _ _ _ => Return true;
     splitlines := fun s => [s] |}.

Definition args : Args :=
  {| start := DEFAULT_START; max_pages := 3000; delay := 3 # 2; include_docs := false |}.

(** The parser [main] gets, and the states of the run. *)
Definition rp : RobotFileParser :=
  match main_init env args with Return (r, _) => r | Raise _ => new_parser [] end.
Definition s0 : State :=
  match main_init env args with
  | Return (_, s) => s
  | Raise _ => {| queue := []; seen := ∅; count := 0; nreq := 0; log := [] |}
  end.
Definition after (n : nat) : State :=
  match crawl_loop env args rp n s0 with Return s => s | Raise _ => s0 end.

(** The same site when robots.txt cannot be fetched (the name does not
    resolve, say): [urlopen] raises. *)
Definition offline : Env :=
  {| netloc_error := netloc_error env; urljoin := urljoin env;
     requests_get := requests_get env; utcnow := utcnow env;
     decode_ignore := decode_ignore env; decode_strict := decode_strict env;
     doc_short_title := doc_short_title env;
     doc_article_text := doc_article_text env;
     soup_get_text := soup_get_text env; soup_hrefs := soup_hrefs env;
     soup_locs := soup_locs env; pdf_extract_text := pdf_extract_text env;
     docx_paragraphs := docx_paragraphs env;
     urlopen := fun _ => UrlopenRaises (py "Name or service not known");
     time_time := time_time env; rules_can_fetch := rules_can_fetch env;
     splitlines := splitlines env |}.

(** Variants of the site: one library call or one request fails. *)
Definition with_urljoin (j : str -> str -> result str) : Env :=
  {| netloc_error := netloc_error env; urljoin := j;
     requests_get := requests_get env; utcnow := utcnow env;
     decode_ignore := decode_ignore env; decode_strict := decode_strict env;
     doc_short_title := doc_short_title env;
     doc_article_text := doc_article_text env;
     soup_get_text := soup_get_text env; soup_hrefs := soup_hrefs env;
     soup_locs := soup_locs env; pdf_extract_text := pdf_extract_text env;
     docx_paragraphs := docx_paragraphs env; urlopen := urlopen env;
     time_time := time_time env; rules_can_fetch := rules_can_fetch env;
     splitlines := splitlines env |}.


Definition with_get (g : nat -> str -> result Response) : Env :=
  {| netloc_error := netloc_error env; urljoin := urljoin env;
     requests_get := g; utcnow := utcnow env;
     decode_ignore := decode_ignore env; decode_strict := decode_strict env;
     doc_short_title := doc_short_title env;
     doc_article_text := doc_article_text env;
     soup_get_text := soup_get_text env; soup_hrefs := soup_hrefs env;
     soup_locs := soup_locs env; pdf_extract_text := pdf_extract_text env;
     docx_paragraphs := docx_paragraphs env; urlopen := urlopen env;
     time_time := time_time env; rules_can_fetch := rules_can_fetch env;
     splitlines := splitlines env |}.

(** A link that urljoin rejects: resolving the link to /c raises. *)
Definition bad_href : Env :=
  with_urljoin (fun base href =>
    if str_eqb href page_c then Raise (py "Invalid IPv6 URL") else urljoin env base href).


(** The sitemap request times out. *)
Definition no_sitemap : Env :=
  with_get (fun n u =>
    if str_eqb u (py "https://www.deltawonen.nl/sitemap.xml")
    then Raise (py "read timed out") else get n u).

(** A page budget of zero. *)
Definition args0 : Args :=
  {| start := DEFAULT_START; max_pages := 0; delay := 3 # 2; include_docs := false |}.

(** A state of the loop with one URL pending. *)
Definition pending (u : str) : State :=
  {| queue := [u]; seen := ∅; count := 0; nreq := 1; log := [] |}.

(** The page record at position [n] of the log of the full run. *)
Definition record_at (n : nat) : PageItem :=
  match log (after 30) !! n with
  | Some (EvPage p) => p
  | _ => fetch_error_item [] [] []
  end.
End Demo.

(** ** Notions used in the statements *)

(** The two kinds of page record [main] writes: with the SHA-1 of the text
    (branches html, pdf, docx), and with an empty hash (fetch error, HTTP
    error, other content types). *)
Definition hashed_page (p : PageItem) : Prop :=
  content_type p ∈ [py "html"; py "pdf"; py "docx"] /\ sha1 p = sha1_text (text p).

Definition unhashed_page (p : PageItem) : Prop :=
  sha1 p = [] /\ title p = [] /\ links p = [] /\
  (text p = [] \/ content_type p = py "error").

(** What holds of the log at every point of a run: no URL is fetched twice,
    every fetched URL is in the seen set, and the page records are, in
    order, those of the fetched URLs. *)
Definition log_inv (s : State) : Prop :=
  NoDup (fetched (log s)) /\
  (forall u, u ∈ fetched (log s) -> u ∈ seen s) /\
  map url (raw_pages (log s)) = fetched (log s).

(** The state [s] with another queue. *)
Definition with_queue (q : list str) (s : State) : State :=
  {| queue := q; seen := seen s; count := count s; nreq := nreq s; log := log s |}.

Definition map_state (f : State -> State) (r : result State) : result State :=
  match r with Raise m => Raise m | Return s => Return (f s) end.

(** The ways fetching or reading robots.txt fails without the library
    taking it as "no robots.txt": urlopen raises, the server answers 401,
    403 or an error outside 4xx, or the body is not UTF-8. *)
Definition robots_unavailable (E : Env) (robots_url : str) : Prop :=
  match urlopen E robots_url with
  | UrlopenRaises _ => True
  | UrlopenHTTPError code => code = 401 \/ code = 403 \/ ~ (400 <= code < 500)
  | UrlopenBody raw => exists m, decode_strict E raw = Raise m
  end.

(** The white-space-heavy text used against the marker rule: "a", a
    thousand spaces, "b". *)
Definition spaced_text : str := 97%N :: repeat SPACE 1000 ++ [98%N].


(** [t] is [e] up to the case folding of [re.I]. *)
Definition ci_equal (e t : str) : Prop :=
  Forall2 (fun pc c => chr_match true pc c = true) e t.

(** The path ends in a dot and one of the denied extensions, in any case. *)
Definition ends_in_denied_ext (p : str) : Prop :=
  exists e pre t, e ∈ DENY_EXTS /\ p = pre ++ 46%N :: t /\ ci_equal e t.

(** The scope rule with the netloc, as [is_allowed] tests it, and with the
    host name (the netloc without user information and port). *)
Definition in_scope_by_netloc (E : Env) (u : str) : Prop :=
  exists p, urlparse E u = Return p /\
    (scheme p = py "http" \/ scheme p = py "https") /\
    lower (netloc p) ∈ ALLOWED_NETLOCS /\
    ~ ends_in_denied_ext (path p).

Definition in_scope_by_host (E : Env) (u : str) : Prop :=
  exists p, urlparse E u = Return p /\
    (scheme p = py "http" \/ scheme p = py "https") /\
    (exists h, hostname p = Some h /\ h ∈ ALLOWED_NETLOCS) /\
    ~ ends_in_denied_ext (path p).

(** The URL of the start page with the default port written out. *)
Definition root_with_port : str := py "https://www.deltawonen.nl:443/".

(** A word as [str.split()] gives them: non-empty and free of white space. *)
Definition is_word (w : str) : Prop :=
  w <> [] /\ Forall (fun c => is_space c = false) w.

(** A lower-case hexadecimal digit. *)
Definition is_hex (c : N) : bool :=
  ((48 <=? c) && (c <=? 57) || (97 <=? c) && (c <=? 102))%N.

(** The arguments of the sleeps in a log. *)
Definition sleeps (l : list Event) : list Q :=
  omap (fun e => match e with EvSleep d => Some d | _ => None end) l.


(** The sitemap request gives nothing to read: it raises, answers another
    status than 200 or a content type without "xml", or the XML parser
    raises. *)
Definition sitemap_unusable (E : Env) : Prop :=
  match requests_get E 0 (py "https://www.deltawonen.nl/sitemap.xml") with
  | Raise _ => True
  | Return r =>
      status_code r <> 200 \/
      contains (py "xml") (ci_get (py "content-type") (headers r)) = false \/
      exists m, soup_locs E (r_text r) = Raise m
  end.

(** * Properties *)

(** ** summarize *)

Lemma len_app {A} (a b : list A) : len (a ++ b) = len a + len b.
Proof. unfold len. rewrite length_app. lia. Qed.

Lemma len_nonneg {A} (a : list A) : 0 <= len a.
Proof. unfold len. lia. Qed.

Lemma slice_to_len {A} (n : Z) (s : list A) :
  0 <= n -> len (slice_to n s) = Z.min n (len s).
Proof.
  intros Hn. unfold slice_to, len.
  destruct (Z.leb_spec 0 n); [|lia].
  rewrite length_take. lia.
Qed.

Lemma slice_to_all {A} (n : Z) (s : list A) :
  len s <= n -> slice_to n s = s.
Proof.
  intros Hn. unfold slice_to.
  destruct (Z.leb_spec 0 n).
  - apply take_ge. unfold len in Hn. lia.
  - pose proof (len_nonneg s). lia.
Qed.

Lemma not_ends_with_marker_last (pre : str) (c : N) :
  c <> ELLIPSIS -> ~ ends_with_marker (pre ++ [c]).
Proof.
  intros Hc [p Hp]. apply app_inj_tail in Hp. destruct Hp as [_ Hp]. congruence.
Qed.

(** C9, as stated, fails: a text of 1002 characters whose white space
    collapses to "a b" is longer than [max_chars = 1000], yet its summary
    carries no marker. *)
Lemma summarize_marker_counterexample :
  ~ (ends_with_marker (summarize spaced_text 1000) <-> 1000 < len spaced_text).
Proof.
  intros [_ H].
  assert (Hlen : 1000 < len spaced_text) by (vm_compute; reflexivity).
  specialize (H Hlen).
  assert (Hs : summarize spaced_text 1000 = [97%N; 32%N] ++ [98%N])
    by (vm_compute; reflexivity).
  rewrite Hs in H.
  revert H. apply not_ends_with_marker_last. discriminate.
Qed.

(** C9 (amended): for a non-negative [max_chars] the answer has at most
    [max_chars + 1] characters; when the white-space-normalised text is
    longer than [max_chars] the answer is its first [max_chars] characters
    followed by the marker, and otherwise it is the normalised text itself,
    with nothing appended. *)
Theorem summarize_truncation (text : str) (max_chars : Z) :
  0 <= max_chars ->
  len (summarize text max_chars) <= max_chars + 1 /\
  (max_chars < len (normalize_ws text) ->
     summarize text max_chars
       = take (Z.to_nat max_chars) (normalize_ws text) ++ [ELLIPSIS]) /\
  (len (normalize_ws text) <= max_chars ->
     summarize text max_chars = normalize_ws text).
Proof.
  intros Hm. unfold summarize. cbv zeta.
  split; [|split].
  - rewrite len_app, slice_to_len by done.
    destruct (Z.ltb_spec max_chars (len (normalize_ws text)));
      [change (len [ELLIPSIS]) with 1 | change (len (@nil N)) with 0]; lia.
  - intros Hlt.
    destruct (Z.ltb_spec max_chars (len (normalize_ws text))); [|lia].
    unfold slice_to. destruct (Z.leb_spec 0 max_chars); [done|lia].
  - intros Hle.
    destruct (Z.ltb_spec max_chars (len (normalize_ws text))); [lia|].
    rewrite slice_to_all by done. apply app_nil_r.
Qed.

Lemma summarize_truncation_witness :
  0 <= 5 /\
  summarize (py "  hello   world  ") 5 = py "hello" ++ [ELLIPSIS] /\
  summarize (py "a  b") 5 = py "a b".
Proof.
  split; [lia|]. split.
  - apply (summarize_truncation (py "  hello   world  ") 5); [lia|].
    vm_compute. reflexivity.
  - apply (summarize_truncation (py "a  b") 5); [lia|].
    vm_compute. discriminate.
Defined.

(** ** The log of the crawl loop *)

Lemma fetched_app (l1 l2 : list Event) : fetched (l1 ++ l2) = fetched l1 ++ fetched l2.
Proof. apply omap_app. Qed.

Lemma raw_pages_app (l1 l2 : list Event) :
  raw_pages (l1 ++ l2) = raw_pages l1 ++ raw_pages l2.
Proof. apply omap_app. Qed.

Lemma qa_records_app (l1 l2 : list Event) :
  qa_records (l1 ++ l2) = qa_records l1 ++ qa_records l2.
Proof. apply omap_app. Qed.

Lemma sha1_text_len (s : str) : len (sha1_text s) = 40.
Proof.
  unfold sha1_text, SHA1.hexdigest.
  destruct (SHA1.digest _) as [[[[h0 h1] h2] h3] h4]. reflexivity.
Qed.

Lemma sha1_text_nonempty (s : str) : sha1_text s <> [].
Proof.
  intros H. pose proof (sha1_text_len s) as Hl. rewrite H in Hl. discriminate.
Qed.

Ltac list_in := rewrite ?elem_of_cons; auto 10.
Ltac no_event H :=
  simpl in H;
  repeat (apply elem_of_cons in H as [H|H]; [discriminate H|]);
  by apply elem_of_nil in H.
Ltac no_puts := let v := fresh in let Hv := fresh in
  intros v Hv; by apply elem_of_nil in Hv.

Section CrawlFacts.
Context (E : Env) (args : Args) (rp : RobotFileParser).

(** What one visit writes after a fetch that returned: no further fetch,
    exactly one page record, for the visited URL and with the status of
    the response; only links passing the filter are enqueued. *)
Lemma process_spec sn u st ct body hdrs now puts evs :
  process E args rp sn u st ct body hdrs now = Return (puts, evs) ->
  fetched evs = [] /\
  (exists p, raw_pages evs = [p] /\ url p = u /\ status p = st /\
             fetched_at p = now /\ (hashed_page p \/ unhashed_page p)) /\
  (forall v, v ∈ puts -> enqueue_ok E rp sn v = true) /\
  (forall d, EvSleep d ∉ evs).
Proof.
  unfold process. intros H.
  destruct (st =? 200) eqn:Hst.
  - destruct (contains (py "text/html") (lower ct)) eqn:Hhtml.
    + destruct (clean_html_to_text E (decode_ignore E body)) as [m|[ttl txt0]];
        simpl in H; [discriminate|].
      destruct (discover_links E u (decode_ignore E body)) as [m|lnks];
        simpl in H; [discriminate|].
      injection H as <- <-.
      split; [by destruct (nonempty ttl && nonempty _)|].
      split.
      { eexists. split; [by destruct (nonempty ttl && nonempty _)|].
        repeat split; try done. left. split; [list_in|done]. }
      split.
      { intros v Hv. apply list_elem_of_filter in Hv. by destruct Hv as [Hv _];
          apply Is_true_true in Hv. }
      intros d Hd. destruct (nonempty ttl && nonempty _); no_event Hd.
    + destruct (contains (py "application/pdf") (lower ct) || endswith (py ".pdf") (lower u)).
      { destruct (guess_filename E u hdrs) as [m|fname]; simpl in H; [discriminate|].
        injection H as <- <-.
        split; [done|]. split.
        { eexists. split; [done|]. repeat split; try done. left. split; [list_in|done]. }
        split; [no_puts|]. intros d Hd. no_event Hd. }
      destruct (contains _ (lower ct) || endswith (py ".docx") (lower u)).
      { destruct (guess_filename E u hdrs) as [m|fname]; simpl in H; [discriminate|].
        injection H as <- <-.
        split; [done|]. split.
        { eexists. split; [done|]. repeat split; try done. left. split; [list_in|done]. }
        split; [no_puts|]. intros d Hd. no_event Hd. }
      destruct (include_docs args && _).
      { destruct (guess_filename E u hdrs) as [m|fname]; simpl in H; [discriminate|].
        injection H as <- <-.
        split; [done|]. split.
        { eexists. split; [done|]. repeat split; try done. right. repeat split; auto. }
        split; [no_puts|]. intros d Hd. no_event Hd. }
      simpl in H. injection H as <- <-.
      split; [done|]. split.
      { eexists. split; [done|]. repeat split; try done. right. repeat split; auto. }
      split; [no_puts|]. intros d Hd. no_event Hd.
  - injection H as <- <-.
    split; [done|]. split.
    { eexists. split; [done|]. repeat split; try done. right. repeat split; auto. }
    split; [no_puts|]. intros d Hd. no_event Hd.
Qed.
End CrawlFacts.

Section LoopFacts.
Context (E : Env) (args : Args) (rp : RobotFileParser).

(** A dequeued URL that is already in the seen set is dropped: nothing is
    fetched, written or counted. *)
Lemma loop_body_skip s u rest :
  queue s = u :: rest -> u ∈ seen s ->
  loop_body E args rp s = Return (with_queue rest s).
Proof.
  intros Hq Hu. unfold loop_body. rewrite Hq.
  by rewrite bool_decide_eq_true_2.
Qed.

(** The [except] branch of the loop. *)
Lemma loop_body_fetch_error s u rest e :
  queue s = u :: rest -> u ∉ seen s -> fetch E (nreq s) u = Raise e ->
  loop_body E args rp s =
    Return {| queue := rest; seen := {[u]} ∪ seen s; count := count s;
              nreq := S (nreq s);
              log := log s ++ [EvFetch u;
                               EvPage (fetch_error_item u e (utcnow E (nreq s)))] |}.
Proof.
  intros Hq Hu He. unfold loop_body. rewrite Hq.
  rewrite bool_decide_eq_false_2 by done. by rewrite He.
Qed.

(** The rest of the loop body, after a fetch that returned. *)
Lemma loop_body_visit s u rest st ct body hdrs :
  queue s = u :: rest -> u ∉ seen s ->
  fetch E (nreq s) u = Return (st, ct, body, hdrs) ->
  loop_body E args rp s =
    bind (process E args rp ({[u]} ∪ seen s) u st ct body hdrs (utcnow E (nreq s)))
      (fun '(puts, evs) =>
         Return {| queue := rest ++ puts; seen := {[u]} ∪ seen s;
                   count := count s + 1; nreq := S (nreq s);
                   log := log s ++ EvFetch u :: evs ++ [EvSleep (delay args)] |}).
Proof.
  intros Hq Hu He. unfold loop_body. rewrite Hq.
  rewrite bool_decide_eq_false_2 by done. by rewrite He.
Qed.

(** Every iteration is one of: nothing to do, a skip, a failed fetch, a
    visit. *)
Lemma loop_body_cases s s' :
  loop_body E args rp s = Return s' ->
  (queue s = [] /\ s' = s) \/
  exists u rest, queue s = u :: rest /\
    ((u ∈ seen s /\ s' = with_queue rest s) \/
     ((u ∉ seen s) /\ (exists e,
        fetch E (nreq s) u = Raise e /\
        s' = {| queue := rest; seen := {[u]} ∪ seen s; count := count s;
                nreq := S (nreq s);
                log := log s ++ [EvFetch u;
                                 EvPage (fetch_error_item u e (utcnow E (nreq s)))] |})) \/
     ((u ∉ seen s) /\ exists st ct body hdrs puts evs,
        fetch E (nreq s) u = Return (st, ct, body, hdrs) /\
        process E args rp ({[u]} ∪ seen s) u st ct body hdrs (utcnow E (nreq s))
          = Return (puts, evs) /\
        s' = {| queue := rest ++ puts; seen := {[u]} ∪ seen s;
                count := count s + 1; nreq := S (nreq s);
                log := log s ++ EvFetch u :: evs ++ [EvSleep (delay args)] |})).
Proof.
  intros H. destruct (queue s) as [|u rest] eqn:Hq.
  - left. unfold loop_body in H. rewrite Hq in H. by injection H as <-.
  - right. exists u, rest. split; [done|].
    destruct (decide (u ∈ seen s)) as [Hu|Hu].
    + left. rewrite (loop_body_skip s u rest Hq Hu) in H. by injection H as <-.
    + right. destruct (fetch E (nreq s) u) as [e|[[[st ct] body] hdrs]] eqn:Hf.
      * left. split; [done|]. exists e. split; [done|].
        rewrite (loop_body_fetch_error s u rest e Hq Hu Hf) in H. by injection H as <-.
      * right. split; [done|].
        rewrite (loop_body_visit s u rest st ct body hdrs Hq Hu Hf) in H.
        destruct (process _ _ _ _ _ _ _ _ _ _) as [m|[puts evs]] eqn:Hp;
          simpl in H; [discriminate|].
        exists st, ct, body, hdrs, puts, evs. by injection H as <-.
Qed.

Lemma log_inv_extend s s' u evs :
  log_inv s -> u ∉ seen s ->
  seen s' = {[u]} ∪ seen s ->
  log s' = log s ++ EvFetch u :: evs ->
  fetched evs = [] ->
  map url (raw_pages evs) = [u] ->
  log_inv s'.
Proof.
  intros (Hnd & Hsub & Hpages) Hu Hseen Hlog Hf Hp. unfold log_inv.
  rewrite Hlog, fetched_app, raw_pages_app, map_app, Hseen. simpl.
  rewrite Hf, Hp, Hpages. split; [|split]; [| |done].
  2:{ intros x [Hx|Hx]%elem_of_app.
      - apply elem_of_union_r. auto.
      - apply list_elem_of_singleton in Hx as ->.
        apply elem_of_union_l. by apply elem_of_singleton. }
  apply NoDup_app. split; [done|]. split; [|apply NoDup_singleton].
  intros x Hx Hx'. apply list_elem_of_singleton in Hx' as ->. auto.
Qed.

Lemma loop_body_inv s s' :
  log_inv s -> loop_body E args rp s = Return s' -> log_inv s'.
Proof.
  intros Hinv H.
  destruct (loop_body_cases s s' H)
    as [[_ ->]|(u & rest & Hq & [[Hu ->]|[[Hu (e & He & ->)]|[Hu Hv]]])]; try done.
  - eapply (log_inv_extend s _ u); eauto.
  - destruct Hv as (st & ct & body & hdrs & puts & evs & Hf & Hp & ->).
    destruct (process_spec _ _ _ _ _ _ _ _ _ _ _ _ Hp)
      as (Hfe & (p & Hpg & Hurl & _) & _).
    eapply (log_inv_extend s _ u); eauto; simpl.
    + by rewrite fetched_app, Hfe.
    + rewrite raw_pages_app, Hpg. simpl. by rewrite Hurl.
Qed.

Lemma crawl_loop_inv fuel s s' :
  log_inv s -> crawl_loop E args rp fuel s = Return s' -> log_inv s'.
Proof.
  revert s. induction fuel as [|fuel IH]; intros s Hinv H; simpl in H.
  - by injection H as <-.
  - destruct (loop_cond args s); [|by injection H as <-].
    destruct (loop_body E args rp s) as [m|s1] eqn:Hb; simpl in H; [discriminate|].
    eauto using loop_body_inv.
Qed.
End LoopFacts.

Lemma main_init_inv E args rp s0 :
  main_init E args = Return (rp, s0) -> log_inv s0.
Proof.
  unfold main_init. destruct (start args) as [|root ?]; [discriminate|].
  destruct (get_robot_parser E root) as [m|rp']; simpl; [discriminate|].
  intros H. injection H as <- <-. unfold log_inv. simpl.
  split; [apply NoDup_nil_2|]. split; [|done]. intros u Hu. by apply elem_of_nil in Hu.
Qed.

Lemma main_inv E args fuel s :
  main E args fuel = Return s -> log_inv s.
Proof.
  unfold main. destruct (main_init E args) as [m|[rp s0]] eqn:Hi; simpl; [discriminate|].
  intros H. eapply crawl_loop_inv; eauto using main_init_inv.
Qed.

Lemma NoDup_map_filter_le {A} (f : A -> str) (l : list A) (u : str) :
  NoDup (map f l) ->
  (length (filter (fun p => f p = u) l) <= 1)%nat.
Proof.
  induction l as [|x l IH]; intros Hnd; [simpl; lia|].
  simpl in Hnd. apply NoDup_cons in Hnd as [Hx Hnd].
  rewrite filter_cons. destruct (decide (f x = u)) as [Hxu|Hxu]; [|auto].
  assert (Hnil : filter (fun p => f p = u) l = []).
  { apply elem_of_nil_inv. intros y Hy. apply list_elem_of_filter in Hy as [Hy1 Hy2].
    apply Hx. rewrite Hxu, <- Hy1. by apply list_elem_of_fmap_2. }
  rewrite Hnil. simpl. lia.
Qed.

(** ** C2: each URL is fetched, and recorded, at most once *)

(** C2: in the state a run of [main] is in after any number of loop
    iterations, no URL was fetched twice, the page records are exactly those
    of the fetched URLs (so the number of page records with a given URL is
    at most one), and every fetched URL is in the seen set. *)
Theorem url_fetched_at_most_once (E : Env) (args : Args) (fuel : nat) (s : State) :
  main E args fuel = Return s ->
  NoDup (fetched (log s)) /\
  map url (raw_pages (log s)) = fetched (log s) /\
  (forall u, (length (filter (fun p => url p = u) (raw_pages (log s))) <= 1)%nat) /\
  (forall u, u ∈ fetched (log s) -> u ∈ seen s).
Proof.
  intros H. destruct (main_inv E args fuel s H) as (Hnd & Hsub & Hpages).
  repeat split; try done.
  intros u. apply NoDup_map_filter_le. by rewrite Hpages.
Qed.

Lemma url_fetched_at_most_once_witness :
  NoDup (fetched (log (Demo.after 30))) /\
  map url (raw_pages (log (Demo.after 30))) = fetched (log (Demo.after 30)).
Proof.
  assert (H : main Demo.env Demo.args 30 = Return (Demo.after 30))
    by (vm_compute; reflexivity).
  destruct (url_fetched_at_most_once Demo.env Demo.args 30 (Demo.after 30) H)
    as (H1 & H2 & _).
  exact (conj H1 H2).
Defined.

(** ** C4: a failed fetch is recorded and the loop goes on *)

(** C4: when the fetch of the dequeued, not yet seen URL raises, the
    iteration does not raise: it appends one page record with content type
    "error", status 0 and the text "[[FETCH ERROR: e]]" for the exception's
    message [e], writes nothing else, leaves the rest of the queue in place,
    and the loop continues from that state. *)
Theorem fetch_error_recorded_and_loop_continues
    (E : Env) (args : Args) (rp : RobotFileParser) (s : State)
    (u : str) (rest : list str) (e : str) :
  queue s = u :: rest -> u ∉ seen s ->
  requests_get E (nreq s) u = Raise e ->
  exists s' p,
    loop_body E args rp s = Return s' /\
    log s' = log s ++ [EvFetch u; EvPage p] /\
    url p = u /\ content_type p = py "error" /\ status p = 0 /\
    text p = py "[[FETCH ERROR: " ++ e ++ py "]]" /\
    queue s' = rest /\ u ∈ seen s' /\
    (forall fuel, loop_cond args s = true ->
       crawl_loop E args rp (S fuel) s = crawl_loop E args rp fuel s').
Proof.
  intros Hq Hu He.
  assert (Hf : fetch E (nreq s) u = Raise e) by (unfold fetch; by rewrite He).
  eexists _, _. split; [by apply loop_body_fetch_error|].
  simpl. repeat split; try done.
  - apply elem_of_union_l. by apply elem_of_singleton.
  - intros fuel Hc. simpl. rewrite Hc.
    by rewrite (loop_body_fetch_error E args rp s u rest e Hq Hu Hf).
Qed.

Lemma fetch_error_recorded_and_loop_continues_witness :
  exists s' p,
    loop_body Demo.env Demo.args Demo.rp (Demo.after 3) = Return s' /\
    log s' = log (Demo.after 3) ++ [EvFetch Demo.page_down; EvPage p] /\
    status p = 0 /\ queue s' = tail (queue (Demo.after 3)).
Proof.
  destruct (fetch_error_recorded_and_loop_continues Demo.env Demo.args Demo.rp
              (Demo.after 3) Demo.page_down (tail (queue (Demo.after 3)))
              (py "connection timed out"))
    as (s' & p & H1 & H2 & _ & _ & H3 & _ & H4 & _).
  - vm_compute. reflexivity.
  - eapply (bool_decide_eq_false_1 _). vm_compute. reflexivity.
  - vm_compute. reflexivity.
  - exists s', p. repeat split; assumption.
Defined.

(** ** C6: a response with a status other than 200 *)

(** C6, as stated, fails: the 404 response of the demo site has the
    content-type header "text/html; charset=utf-8", and the page record
    written for it has content type "error". *)
Lemma http_error_content_type_counterexample :
  exists r p,
    requests_get Demo.env 4 Demo.page_missing = Return r /\
    status_code r = 404 /\
    EvPage p ∈ log (Demo.after 30) /\
    url p = Demo.page_missing /\ status p = 404 /\
    content_type p <> ci_get (py "content-type") (headers r).
Proof.
  exists (Demo.response 404 Demo.html_headers "gone"),
         (http_error_item Demo.page_missing 404 (utcnow Demo.env 4)).
  split; [vm_compute; reflexivity|]. split; [reflexivity|].
  split.
  { apply (list_elem_of_lookup_2 _ 13%nat). vm_compute. reflexivity. }
  split; [reflexivity|]. split; [reflexivity|].
  vm_compute. discriminate.
Qed.

(** C6 (amended): when the fetch of the dequeued, not yet seen URL returns
    a status other than 200, the iteration writes exactly one page record,
    with that status, content type "error" and text "HTTP <status>", then
    sleeps; it writes no QA record and puts nothing on the queue. *)
Theorem http_error_recorded
    (E : Env) (args : Args) (rp : RobotFileParser) (s : State)
    (u : str) (rest : list str) (r : Response) :
  queue s = u :: rest -> u ∉ seen s ->
  requests_get E (nreq s) u = Return r ->
  status_code r <> 200 ->
  exists s' p,
    loop_body E args rp s = Return s' /\
    log s' = log s ++ [EvFetch u; EvPage p; EvSleep (delay args)] /\
    url p = u /\ status p = status_code r /\ content_type p = py "error" /\
    text p = py "HTTP " ++ str_of_Z (status_code r) /\
    queue s' = rest /\ count s' = count s + 1.
Proof.
  intros Hq Hu Hr Hst.
  assert (Hf : fetch E (nreq s) u
               = Return (status_code r, ci_get (py "content-type") (headers r),
                         content r, list_to_map (headers r)))
    by (unfold fetch; by rewrite Hr).
  eexists _, _. split.
  - rewrite (loop_body_visit E args rp s u rest _ _ _ _ Hq Hu Hf).
    unfold process. apply Z.eqb_neq in Hst. rewrite Hst. simpl. reflexivity.
  - simpl. rewrite app_nil_r. repeat split; reflexivity.
Qed.

Lemma http_error_recorded_witness :
  exists s' p,
    loop_body Demo.env Demo.args Demo.rp (Demo.after 4) = Return s' /\
    log s' = log (Demo.after 4)
               ++ [EvFetch Demo.page_missing; EvPage p; EvSleep (delay Demo.args)] /\
    status p = 404 /\ content_type p = py "error".
Proof.
  destruct (http_error_recorded Demo.env Demo.args Demo.rp (Demo.after 4)
              Demo.page_missing (tail (queue (Demo.after 4)))
              (Demo.response 404 Demo.html_headers "gone"))
    as (s' & p & H1 & H2 & _ & H3 & H4 & _).
  - vm_compute. reflexivity.
  - eapply (bool_decide_eq_false_1 _). vm_compute. reflexivity.
  - vm_compute. reflexivity.
  - discriminate.
  - exists s', p. repeat split; assumption.
Defined.

(** ** C8: the content hash of a page record *)







Lemma empty_html_page_has_hash :
  exists p, EvPage p ∈ log (Demo.after 30) /\ content_type p = py "html" /\
            text p = [] /\ sha1 p = py "da39a3ee5e6b4b0d3255bfef95601890afd80709".
Proof.
  eexists. split; [apply (list_elem_of_lookup_2 _ 21%nat); vm_compute; reflexivity|].
  repeat split.
Qed.



(** ** C1: when a QA record is written *)

(** X21: in the HTML branch the QA record is written exactly when title
    and text of the page record are both non-empty. *)
Lemma html_qa_rule E args rp sn u ct body hdrs now puts evs :
  contains (py "text/html") (lower ct) = true ->
  process E args rp sn u 200 ct body hdrs now = Return (puts, evs) ->
  exists p, raw_pages evs = [p] /\
    (qa_records evs <> [] <-> title p <> [] /\ text p <> []).
Proof.
  intros Hc. unfold process. rewrite Hc. simpl.
  destruct (clean_html_to_text E (decode_ignore E body)) as [m|[ttl txt0]];
    simpl; [discriminate|].
  destruct (discover_links E u (decode_ignore E body)) as [m|lnks];
    simpl; [discriminate|].
  intros H. injection H as <- <-.
  eexists. split; [by destruct (nonempty ttl && nonempty _)|]. simpl.
  destruct ttl, (if html_is_article txt0 then txt0 else soup_get_text E _);
    simpl; split; try done; intros [? ?]; done.
Qed.

(** C1 fails on the code for PDF (and DOCX) pages: on the demo run the PDF
    whose extraction yields the empty string gets a page record with an
    empty text and, all the same, a QA record (with an empty answer). *)
Theorem pdf_without_text_still_emits_qa :
  exists p r,
    EvPage p ∈ log (Demo.after 30) /\ url p = Demo.page_pdf /\
    title p <> [] /\ text p = [] /\
    EvQA r ∈ log (Demo.after 30) /\ sources r = [Demo.page_pdf] /\ answer r = [].
Proof.
  eexists _, _.
  split; [apply (list_elem_of_lookup_2 _ 17%nat); vm_compute; reflexivity|].
  split; [reflexivity|]. split; [discriminate|]. split; [reflexivity|].
  split; [apply (list_elem_of_lookup_2 _ 18%nat); vm_compute; reflexivity|].
  split; reflexivity.
Qed.

(** ** C5: the politeness delay *)

(** C5 fails on the code after a failed fetch: on the demo run the record
    of the fetch that raised is followed at once by the next fetch, with no
    sleep in between (after every other visit the log has a sleep). *)
Theorem no_sleep_after_fetch_error :
  exists l1 p l2,
    log (Demo.after 30)
      = l1 ++ EvFetch Demo.page_down :: EvPage p :: EvFetch Demo.page_missing :: l2 /\
    content_type p = py "error" /\ status p = 0.
Proof.
  exists (take 10 (log (Demo.after 30))),
         (fetch_error_item Demo.page_down (py "connection timed out") (utcnow Demo.env 3)),
         (drop 13 (log (Demo.after 30))).
  split; [vm_compute; reflexivity|]. split; reflexivity.
Qed.

(** ** C10: the frontier may hold a URL several times *)

(** C10: what an iteration puts on the queue does not depend on what is
    pending: with another tail of the queue the iteration does the same and
    appends the same URLs.  So the queue can hold a URL twice: on the demo
    run the seeded queue holds the start page twice (sitemap and start
    list), and after three iterations page /c is pending twice, found on
    two pages; each of them still gets exactly one page record. *)
Theorem frontier_may_hold_duplicates :
  (forall E args rp s u q1 q2,
     loop_body E args rp (with_queue (u :: q2) s)
     = map_state (fun s1 => with_queue (q2 ++ drop (length q1) (queue s1)) s1)
         (loop_body E args rp (with_queue (u :: q1) s))) /\
  queue Demo.s0 = [Demo.root; Demo.root] /\
  queue (Demo.after 3)
    = [Demo.page_down; Demo.page_missing; Demo.page_pdf; Demo.page_empty;
       Demo.page_c; Demo.page_c] /\
  (Demo.page_c ∉ seen (Demo.after 3)) /\
  length (filter (fun p => url p = Demo.page_c) (raw_pages (log (Demo.after 30)))) = 1%nat /\
  length (filter (fun p => url p = Demo.root) (raw_pages (log (Demo.after 30)))) = 1%nat.
Proof.
  split.
  { intros E args rp s u q1 q2. unfold loop_body, with_queue. simpl.
    destruct (bool_decide (u ∈ seen s)); simpl.
    - by rewrite drop_all, app_nil_r.
    - destruct (fetch E (nreq s) u) as [e|[[[st ct] body] hdrs]]; simpl.
      + by rewrite drop_all, app_nil_r.
      + destruct (process _ _ _ _ _ _ _ _ _ _) as [m|[puts evs]]; simpl; [done|].
        by rewrite drop_app_length. }
  split; [vm_compute; reflexivity|].
  split; [vm_compute; reflexivity|].
  split; [eapply (bool_decide_eq_false_1 _); vm_compute; reflexivity|].
  split; vm_compute; reflexivity.
Qed.

(** ** C7: the robots policy when robots.txt cannot be had *)

Lemma rp_read_url E rp rp' : rp_read E rp = Return rp' -> rp_url rp' = rp_url rp.
Proof.
  unfold rp_read. destruct (urlopen E (rp_url rp)) as [raw|code|msg].
  - destruct (decode_strict E raw); simpl; [discriminate|]. by intros [= <-].
  - destruct ((code =? 401) || (code =? 403)); [by intros [= <-]|].
    destruct ((400 <=? code) && (code <? 500)); by intros [= <-].
  - discriminate.
Qed.

(** C7 fails on the code: [get_robot_parser] swallows the exception of
    [rp.read()], but the parser it returns has never been marked as read,
    and [can_fetch] of such a parser answers False for every URL (as it
    does after a 401 or 403); [allowed_by_robots] only turns an exception
    of [can_fetch] into True.  So when robots.txt cannot be fetched or
    decoded, no URL is allowed. *)
Theorem robots_failure_blocks_every_url (E : Env) (root : str) (rp : RobotFileParser) :
  get_robot_parser E root = Return rp ->
  robots_unavailable E (rp_url rp) ->
  forall u, allowed_by_robots E rp u = false.
Proof.
  unfold get_robot_parser.
  destruct (urljoin E root (py "/robots.txt")) as [m|ru]; simpl; [discriminate|].
  intros H. injection H as <-.
  assert (Hurl : rp_url (try_except (rp_read E (new_parser ru)) (fun _ => new_parser ru)) = ru).
  { destruct (rp_read E (new_parser ru)) as [m|rp'] eqn:Hr; simpl; [done|].
    by rewrite (rp_read_url _ _ _ Hr). }
  rewrite Hurl. unfold robots_unavailable, rp_read. simpl.
  destruct (urlopen E ru) as [raw|code|msg]; intros Hun u.
  - destruct Hun as [m ->]. reflexivity.
  - destruct ((code =? 401) || (code =? 403)) eqn:H4; [reflexivity|].
    destruct ((400 <=? code) && (code <? 500)) eqn:H5; [|reflexivity].
    exfalso. apply orb_false_iff in H4 as [?%Z.eqb_neq ?%Z.eqb_neq].
    apply andb_true_iff in H5 as [?%Z.leb_le ?%Z.ltb_lt].
    destruct Hun as [?|[?|?]]; lia.
  - reflexivity.
Qed.

Lemma robots_failure_blocks_every_url_witness :
  allowed_by_robots Demo.offline
    (new_parser (py "https://www.deltawonen.nl/robots.txt")) Demo.root = false.
Proof.
  apply (robots_failure_blocks_every_url Demo.offline Demo.root).
  - vm_compute. reflexivity.
  - exact I.
Defined.

(** With robots.txt out of reach the crawl visits nothing: the seeded
    queue is empty. *)
Lemma offline_crawl_is_empty :
  exists rp s0, main_init Demo.offline Demo.args = Return (rp, s0) /\ queue s0 = [].
Proof. eexists _, _. split; vm_compute; reflexivity. Qed.

(** ** C3: the scope filter *)

Lemma elem_of_flat_map {A B} (f : A -> list B) (l : list A) (y : B) :
  y ∈ flat_map f l <-> exists x, x ∈ l /\ y ∈ f x.
Proof.
  rewrite list_elem_of_In, in_flat_map. split.
  - intros (x & Hx & Hy). exists x. by rewrite !list_elem_of_In.
  - intros (x & Hx & Hy). exists x. by rewrite <- !list_elem_of_In.
Qed.

Section RegexFacts.
Context (ic : bool).

Lemma in_re_match_chr p cap t x :
  x ∈ re_match ic (Chr p) cap t <->
  exists c rem, t = c :: rem /\ chr_match ic p c = true /\ x = (cap, rem).
Proof.
  simpl. destruct t as [|c t'].
  - split; [by intros ?%elem_of_nil|]. by intros (? & ? & ? & _).
  - destruct (chr_match ic p c) eqn:Hc.
    + rewrite list_elem_of_singleton. split.
      * intros ->. by exists c, t'.
      * intros (c' & rem & [= <- <-] & _ & ->). done.
    + split; [by intros ?%elem_of_nil|].
      intros (c' & rem & [= <- <-] & Hc' & _). congruence.
Qed.

Lemma in_re_match_seq a b cap t x :
  x ∈ re_match ic (Seq a b) cap t <->
  exists c1 s1, (c1, s1) ∈ re_match ic a cap t /\ x ∈ re_match ic b c1 s1.
Proof.
  simpl. rewrite elem_of_flat_map. split.
  - intros ([c1 s1] & H1 & H2). by exists c1, s1.
  - intros (c1 & s1 & H1 & H2). by exists (c1, s1).
Qed.

Lemma in_re_match_alts rs cap t x :
  x ∈ re_match ic (alts rs) cap t <-> exists r, r ∈ rs /\ x ∈ re_match ic r cap t.
Proof.
  induction rs as [|r rs IH].
  - simpl. split.
    + destruct t; by intros ?%elem_of_nil.
    + by intros (? & ?%elem_of_nil & _).
  - destruct rs as [|r' rs].
    + simpl. split.
      * intros H. exists r. split; [by apply list_elem_of_singleton|done].
      * by intros (? & ->%list_elem_of_singleton & ?).
    + change (alts (r :: r' :: rs)) with (Alt r (alts (r' :: rs))).
      change (re_match ic (Alt r (alts (r' :: rs))) cap t)
        with (re_match ic r cap t ++ re_match ic (alts (r' :: rs)) cap t).
      rewrite elem_of_app, IH. split.
      * intros [H|(r0 & Hr0 & H)].
        -- exists r. split; [apply elem_of_cons; by left|done].
        -- exists r0. split; [apply elem_of_cons; by right|done].
      * intros (r0 & [->|Hr0]%elem_of_cons & H); [by left|].
        right. by exists r0.
Qed.

Lemma in_re_match_lit s : forall cap t x,
  x ∈ re_match ic (lit s) cap t <->
  exists w rem, x = (cap, rem) /\ t = w ++ rem /\
                Forall2 (fun pc c => chr_match ic pc c = true) s w.
Proof.
  induction s as [|c s IH]; intros cap t x.
  - simpl. split.
    + intros H. exists [], t. split; [|by split].
      destruct (at_eol t); simpl in H.
      * apply elem_of_cons in H as [->|H]; [done|].
        by apply list_elem_of_singleton in H.
      * by apply list_elem_of_singleton in H.
    + intros (w & rem & -> & -> & Hw). apply Forall2_nil_inv_l in Hw as ->.
      apply elem_of_app. right. by apply list_elem_of_singleton.
  - destruct s as [|d s'].
    + change (lit [c]) with (Chr c). rewrite in_re_match_chr. split.
      * intros (c0 & rem & -> & Hc & ->). exists [c0], rem.
        split; [done|]. split; [done|]. by repeat constructor.
      * intros (w & rem & -> & -> & Hw).
        apply Forall2_cons_inv_l in Hw as (c0 & w' & Hc & Hw' & ->).
        apply Forall2_nil_inv_l in Hw' as ->. by exists c0, rem.
    + change (lit (c :: d :: s')) with (Seq (Chr c) (lit (d :: s'))).
      rewrite in_re_match_seq. split.
      * intros (c1 & s1 & H1 & H2). apply in_re_match_chr in H1
          as (c0 & rem1 & -> & Hc & [= -> ->]).
        apply IH in H2 as (w & rem & -> & -> & Hw).
        exists (c0 :: w), rem. split; [done|]. split; [done|]. by constructor.
      * intros (w & rem & -> & -> & Hw).
        apply Forall2_cons_inv_l in Hw as (c0 & w' & Hc & Hw' & ->).
        exists cap, (w' ++ rem). split.
        -- apply in_re_match_chr. by exists c0, (w' ++ rem).
        -- apply IH. by exists w', rem.
Qed.

(** [re.search] finds a match when the pattern matches at some position. *)
Lemma re_search_spec r s :
  is_Some (re_search ic r s) <->
  exists pre t x, s = pre ++ t /\ x ∈ re_match ic r None t.
Proof.
  induction s as [|c s IH].
  - simpl. destruct (re_match ic r None []) as [|[cap rem] l] eqn:Hm.
    + split; [by intros [? ?]|].
      intros (pre & t & x & Hs & Hx). symmetry in Hs.
      apply app_eq_nil in Hs as [-> ->]. rewrite Hm in Hx. by apply elem_of_nil in Hx.
    + split; [|by eexists]. intros _. exists [], [], (cap, rem).
      split; [done|]. rewrite Hm. apply elem_of_cons. by left.
  - simpl. destruct (re_match ic r None (c :: s)) as [|[cap rem] l] eqn:Hm.
    + rewrite IH. split.
      * intros (pre & t & x & -> & Hx). by exists (c :: pre), t, x.
      * intros (pre & t & x & Hs & Hx). destruct pre as [|c' pre].
        -- simpl in Hs. subst t. rewrite Hm in Hx. by apply elem_of_nil in Hx.
        -- injection Hs as <- ->. by exists pre, t, x.
    + split; [|by eexists]. intros _. exists [], (c :: s), (cap, rem).
      split; [done|]. rewrite Hm. apply elem_of_cons. by left.
Qed.
End RegexFacts.

Lemma has_char_false c s : has_char c s = false <-> c ∉ s.
Proof.
  unfold has_char. induction s as [|x s IH]; simpl.
  - split; [intros _; apply not_elem_of_nil|done].
  - rewrite orb_false_iff, IH, not_elem_of_cons, N.eqb_neq. done.
Qed.

Lemma has_char_true c s : has_char c s = true <-> c ∈ s.
Proof.
  destruct (has_char c s) eqn:H.
  - split; [|done]. intros _. destruct (decide (c ∈ s)) as [|Hn]; [done|].
    apply has_char_false in Hn. congruence.
  - apply has_char_false in H. split; [done|]. by intros ?.
Qed.

(** Outside a-z a pattern character matches itself only, also under re.I. *)
Lemma chr_match_exact ic p c :
  (p < 97 \/ 122 < p)%N -> chr_match ic p c = true -> c = p.
Proof.
  unfold chr_match. intros Hp H.
  apply orb_true_iff in H as [H|H]; [by apply N.eqb_eq|]. exfalso.
  destruct ic; [|done]. simpl in H.
  destruct (N.leb_spec 97 p), (N.leb_spec p 122), (N.eqb_spec p 105),
    (N.eqb_spec p 115), (N.eqb_spec p 107); simpl in H; try discriminate; lia.
Qed.

Lemma query_eol_spec cap t x :
  63%N ∉ t -> NEWLINE ∉ t ->
  (x ∈ re_match true QUERY_EOL cap t <-> t = [] /\ x = (cap, [])).
Proof.
  intros Hq Hn. unfold QUERY_EOL. rewrite in_re_match_seq. split.
  - intros (c1 & s1 & H1 & H2).
    change (re_match true (Opt (Seq (Chr 63%N) (Star dot))) cap t)
      with (re_match true (Seq (Chr 63%N) (Star dot)) cap t ++ [(cap, t)]) in H1.
    apply elem_of_app in H1 as [H1|H1].
    + exfalso. apply in_re_match_seq in H1 as (c2 & s2 & H1 & _).
      apply in_re_match_chr in H1 as (c & rem & -> & Hc & _).
      apply chr_match_exact in Hc as ->; [|lia]. apply Hq. by left.
    + apply list_elem_of_singleton in H1. injection H1 as -> ->.
      simpl in H2. destruct t as [|c [|c' t']]; simpl in H2.
      * by apply list_elem_of_singleton in H2.
      * exfalso. destruct (N.eqb_spec c NEWLINE) as [->|]; [|by apply elem_of_nil in H2].
        apply Hn. by left.
      * by apply elem_of_nil in H2.
  - intros [-> ->]. exists cap, []. split.
    + apply elem_of_app. right. by apply list_elem_of_singleton.
    + simpl. by apply list_elem_of_singleton.
Qed.

Lemma woff_spec cap t x :
  x ∈ re_match true WOFF_RE cap t <->
  exists e w rem, (e = py "woff" \/ e = py "woff2") /\
                  x = (cap, rem) /\ t = w ++ rem /\ ci_equal e w.
Proof.
  unfold WOFF_RE. rewrite in_re_match_seq. split.
  - intros (c1 & s1 & H1 & H2).
    apply in_re_match_lit in H1 as (w & rem & [= -> ->] & -> & Hw).
    change (re_match true (Opt (Chr 50%N)) cap rem)
      with (re_match true (Chr 50%N) cap rem ++ [(cap, rem)]) in H2.
    apply elem_of_app in H2 as [H2|H2].
    + apply in_re_match_chr in H2 as (c & rem' & -> & Hc & ->).
      exists (py "woff2"), (w ++ [c]), rem'.
      split; [by right|]. split; [done|]. split; [by rewrite <- app_assoc|].
      change (py "woff2") with (py "woff" ++ [50%N]).
      apply Forall2_app; [done|]. by repeat constructor.
    + apply list_elem_of_singleton in H2 as ->.
      exists (py "woff"), w, rem. split; [by left|]. done.
  - intros (e & w & rem & [->| ->] & -> & -> & Hw).
    + exists cap, rem. split.
      * apply in_re_match_lit. by exists w, rem.
      * apply elem_of_app. right. by apply list_elem_of_singleton.
    + change (py "woff2") with (py "woff" ++ [50%N]) in Hw.
      apply Forall2_app_inv_l in Hw as (w1 & w2 & Hw1 & Hw2 & ->).
      apply Forall2_cons_inv_l in Hw2 as (c & w2' & Hc & Hw2' & ->).
      apply Forall2_nil_inv_l in Hw2' as ->.
      exists cap, (c :: rem). split.
      * apply in_re_match_lit. exists w1, (c :: rem).
        split; [done|]. split; [by rewrite <- app_assoc|done].
      * apply elem_of_app. left. apply (in_re_match_chr true 50%N cap (c :: rem)).
        by exists c, rem.
Qed.

Lemma ext_alts_spec cap t x :
  (exists r, r ∈ EXT_ALTS /\ x ∈ re_match true r cap t) <->
  exists e w rem, e ∈ DENY_EXTS /\ x = (cap, rem) /\ t = w ++ rem /\ ci_equal e w.
Proof.
  unfold EXT_ALTS, DENY_EXTS. split.
  - intros (r & Hr & H).
    apply elem_of_app in Hr as [Hr|Hr]; [|apply elem_of_app in Hr as [Hr|Hr]].
    + apply list_elem_of_fmap in Hr as (e & -> & He).
      apply in_re_match_lit in H as (w & rem & -> & -> & Hw).
      exists e, w, rem. split; [apply elem_of_app; by left|done].
    + apply list_elem_of_singleton in Hr as ->.
      apply woff_spec in H as (e & w & rem & He & -> & -> & Hw).
      exists e, w, rem. split; [|done].
      apply elem_of_app. right. apply elem_of_app. left.
      destruct He as [-> | ->]; list_in.
    + apply list_elem_of_fmap in Hr as (e & -> & He).
      apply in_re_match_lit in H as (w & rem & -> & -> & Hw).
      exists e, w, rem. split; [|done].
      apply elem_of_app. right. apply elem_of_app. by right.
  - intros (e & w & rem & He & -> & -> & Hw).
    apply elem_of_app in He as [He|He]; [|apply elem_of_app in He as [He|He]].
    + exists (lit e). split.
      * apply elem_of_app. left. by apply list_elem_of_fmap_2.
      * apply in_re_match_lit. by exists w, rem.
    + exists WOFF_RE. split.
      * apply elem_of_app. right. apply elem_of_app. left. by apply list_elem_of_singleton.
      * apply woff_spec. exists e, w, rem. split; [|done].
        apply elem_of_cons in He as [->|He]; [by left|].
        apply list_elem_of_singleton in He as ->. by right.
    + exists (lit e). split.
      * apply elem_of_app. right. apply elem_of_app. right. by apply list_elem_of_fmap_2.
      * apply in_re_match_lit. by exists w, rem.
Qed.

(** On a path without '?' and without a newline (as [urlparse] gives
    them), the pattern of [is_allowed] is found exactly when the path ends
    in a denied extension. *)
Lemma deny_re_spec p :
  63%N ∉ p -> NEWLINE ∉ p ->
  (is_Some (re_search true DENY_RE p) <-> ends_in_denied_ext p).
Proof.
  intros Hq Hn. rewrite re_search_spec. unfold ends_in_denied_ext, DENY_RE. split.
  - intros (pre & t & x & -> & H).
    apply in_re_match_seq in H as (c1 & s1 & H1 & H2).
    apply in_re_match_chr in H1 as (c & rem & -> & Hc & [= -> ->]).
    apply chr_match_exact in Hc as ->; [|lia].
    apply in_re_match_seq in H2 as (c2 & s2 & H2 & H3).
    apply in_re_match_alts in H2.
    apply ext_alts_spec in H2 as (e & w & rem' & He & [= -> ->] & -> & Hw).
    apply query_eol_spec in H3 as [-> _].
    + exists e, pre, w. by rewrite app_nil_r.
    + intros Hin. apply Hq. rewrite !elem_of_app, elem_of_cons, elem_of_app. auto.
    + intros Hin. apply Hn. rewrite !elem_of_app, elem_of_cons, elem_of_app. auto.
  - intros (e & pre & t & He & -> & Hw).
    exists pre, (46%N :: t), (None, []). split; [done|].
    apply in_re_match_seq. exists None, t. split.
    + apply in_re_match_chr. by exists 46%N, t.
    + apply in_re_match_seq. exists None, []. split.
      * apply in_re_match_alts. apply ext_alts_spec.
        exists e, t, []. by rewrite app_nil_r.
      * apply query_eol_spec; [apply not_elem_of_nil..|done].
Qed.

(** *** The path [urlparse] returns *)

Lemma cut_at_fst c s :
  (c ∉ (cut_at c s).1) /\ (forall x, x ∈ (cut_at c s).1 -> x ∈ s).
Proof.
  induction s as [|y s [IH1 IH2]]; simpl.
  - split; [apply not_elem_of_nil|done].
  - destruct (N.eqb_spec y c) as [->|Hne]; simpl.
    + split; [apply not_elem_of_nil|]. by intros x ?%elem_of_nil.
    + destruct (cut_at c s) as [a b]; simpl in *. split.
      * apply not_elem_of_cons. split; [congruence|done].
      * intros x [->|Hx]%elem_of_cons; [by left|]. right. auto.
Qed.

Lemma splitnetloc_snd s x : x ∈ (splitnetloc s).2 -> x ∈ s.
Proof.
  induction s as [|c s IH].
  - simpl. auto.
  - change (splitnetloc (c :: s))
      with (if has_char c (py "/?#") then ([], c :: s)
            else let '(n, rest) := splitnetloc s in (c :: n, rest)).
    destruct (has_char c (py "/?#")); [done|].
    destruct (splitnetloc s) as [n r]; simpl in *. intros Hx. right. auto.
Qed.

Lemma cut_at_snd c s t x : (cut_at c s).2 = Some t -> x ∈ t -> x ∈ s.
Proof.
  induction s as [|y s IH]; simpl; [discriminate|].
  destruct (N.eqb_spec y c) as [->|Hne]; simpl.
  - intros [= ->] Hx. by right.
  - destruct (cut_at c s) as [a b]; simpl in *. intros Hb Hx. right. auto.
Qed.

Lemma split_scheme_snd url x : x ∈ (split_scheme url).2 -> x ∈ url.
Proof.
  unfold split_scheme. pose proof (cut_at_snd 58%N url) as Hc.
  destruct (cut_at 58%N url) as [[|c0 pre] [rest|]]; simpl in *; try done.
  destruct (is_ascii_alpha c0 && _); simpl; eauto.
Qed.

Lemma cut_at_app c s a b : cut_at c s = (a, Some b) -> s = a ++ c :: b.
Proof.
  revert a. induction s as [|y s IH]; intros a; simpl; [discriminate|].
  destruct (N.eqb_spec y c) as [->|Hne].
  - by intros [= <- <-].
  - destruct (cut_at c s) as [a' b'] eqn:Hc. intros [= <- ->].
    simpl. f_equal. by apply IH.
Qed.

Lemma splitparams_fst url x : x ∈ (splitparams url).1 -> x ∈ url.
Proof.
  unfold splitparams.
  destruct (cut_at 47%N (rev url)) as [rlast [rhead|]] eqn:Hc.
  - destruct (cut_at 59%N (rev rlast)) as [a [b|]] eqn:Hd; [|done].
    apply cut_at_app in Hc. apply cut_at_app in Hd.
    assert (Hurl : url = rev rhead ++ 47%N :: a ++ 59%N :: b).
    { rewrite <- (rev_involutive url), Hc, rev_app_distr. simpl.
      rewrite <- app_assoc. simpl. by rewrite Hd. }
    simpl. rewrite Hurl. rewrite !elem_of_app, !elem_of_cons, elem_of_app.
    tauto.
  - pose proof (cut_at_fst 59%N url) as [_ Hl].
    destruct (cut_at 59%N url) as [a b]; simpl in *. auto.
Qed.

Lemma urlsplit_path E u sch nl pth q f :
  urlsplit E u = Return (sch, nl, pth, q, f) -> (63%N ∉ pth) /\ (NEWLINE ∉ pth).
Proof.
  unfold urlsplit.
  set (u1 := filter _ (lstrip_by C0_CONTROL_OR_SPACE u)).
  assert (H1 : NEWLINE ∉ u1).
  { intros [Hp _]%list_elem_of_filter. exact Hp. }
  pose proof (split_scheme_snd u1) as H2.
  destruct (split_scheme u1) as [sch' u2]; simpl in H2.
  assert (H3 : forall x,
            x ∈ (if startswith (py "//") u2 then splitnetloc (drop 2 u2)
                 else ([], u2)).2 -> x ∈ u2).
  { intros x. destruct (startswith (py "//") u2); [|done].
    intros Hx%splitnetloc_snd. rewrite <- (take_drop 2 u2).
    apply elem_of_app. by right. }
  destruct (if startswith (py "//") u2 then splitnetloc (drop 2 u2) else ([], u2))
    as [nl' u3]; simpl in H3.
  destruct (xorb _ _); [discriminate|].
  pose proof (cut_at_fst 35%N u3) as [_ H4].
  destruct (cut_at 35%N u3) as [u4 fr]; simpl in H4.
  pose proof (cut_at_fst 63%N u4) as [H5 H6].
  destruct (cut_at 63%N u4) as [u5 qu]; simpl in H5, H6.
  destruct (netloc_error E nl'); [discriminate|].
  intros H. injection H as <- <- <- <- <-. split; [done|].
  intros Hx. apply H1. auto.
Qed.

Lemma urlparse_path E u p :
  urlparse E u = Return p -> (63%N ∉ path p) /\ (NEWLINE ∉ path p).
Proof.
  unfold urlparse.
  destruct (urlsplit E u) as [m|[[[[sch nl] pth] q] f]] eqn:Hs; [discriminate|].
  cbv beta iota delta [bind].
  apply urlsplit_path in Hs as [Hq Hn].
  pose proof (splitparams_fst pth) as Hp.
  destruct (str_in sch uses_params && has_char 59%N pth).
  - destruct (splitparams pth) as [a b]; simpl in Hp.
    intros H. injection H as <-. cbn. split; intros Hx; [apply Hq|apply Hn]; auto.
  - intros H. by injection H as <-.
Qed.

Lemma str_in_spec x l : str_in x l = true <-> x ∈ l.
Proof.
  unfold str_in, str_eqb. induction l as [|y l IH]; simpl.
  - split; [discriminate|by intros ?%elem_of_nil].
  - rewrite orb_true_iff, IH, elem_of_cons, bool_decide_eq_true. done.
Qed.

(** A URL that [urlparse] rejects is out of scope: the exception does not
    leave [is_allowed]. *)
Lemma is_allowed_rejects_malformed E u m :
  urlparse E u = Raise m -> is_allowed E u = false.
Proof. intros H. unfold is_allowed. by rewrite H. Qed.

(** C3 (amended): [is_allowed] is a total boolean function, and it accepts
    a URL exactly when [urlparse] succeeds on it, the scheme is http or
    https, the lower-cased netloc (the whole authority, with any user
    information and port) is one of the two allowed names, and the path
    does not end in a dot and a denied extension in any case. *)
Theorem is_allowed_spec (E : Env) (u : str) :
  is_allowed E u = true <-> in_scope_by_netloc E u.
Proof.
  unfold is_allowed, in_scope_by_netloc.
  destruct (urlparse E u) as [m|p] eqn:Hp.
  - cbv beta iota delta [bind try_except]. split; [discriminate|].
    by intros (p & ? & _).
  - cbv beta iota delta [bind try_except].
    destruct (urlparse_path E u p Hp) as [Hq Hn].
    pose proof (deny_re_spec (path p) Hq Hn) as Hd.
    pose proof (str_in_spec (scheme p) [py "http"; py "https"]) as Hs.
    pose proof (str_in_spec (lower (netloc p)) ALLOWED_NETLOCS) as Hl.
    rewrite !elem_of_cons, elem_of_nil in Hs.
    destruct (str_in (scheme p) [py "http"; py "https"]);
      cbv beta iota delta [negb].
    + destruct (str_in (lower (netloc p)) ALLOWED_NETLOCS);
        cbv beta iota delta [negb].
      * destruct (bool_decide (is_Some (re_search true DENY_RE (path p)))) eqn:Hb.
        -- apply bool_decide_eq_true in Hb. split; [discriminate|].
           intros (p' & [= <-] & _ & _ & Hno). exfalso. apply Hno. by apply Hd.
        -- apply bool_decide_eq_false in Hb. split; [|done]. intros _.
           exists p. split; [done|]. split; [|split].
           ++ destruct Hs as [Hs _]. destruct (Hs eq_refl) as [?|[?|[]]]; auto.
           ++ by apply Hl.
           ++ intros Hx. apply Hb. by apply Hd.
      * split; [discriminate|]. intros (p' & [= <-] & _ & Hin & _).
        apply Hl in Hin. discriminate.
    + split; [discriminate|]. intros (p' & [= <-] & Hsch & _).
      destruct Hs as [_ Hs]. assert (false = true); [|discriminate].
      apply Hs. destruct Hsch; auto.
Qed.

(** C3, as stated, fails: the host of https://www.deltawonen.nl:443/ is in
    the allow-set, its scheme is https and its path is "/", yet
    [is_allowed] rejects it, because it compares the netloc
    "www.deltawonen.nl:443". *)
Lemma is_allowed_host_counterexample :
  ~ (is_allowed Demo.env root_with_port = true
     <-> in_scope_by_host Demo.env root_with_port).
Proof.
  intros [_ H]. assert (Hf : is_allowed Demo.env root_with_port = false)
    by (vm_compute; reflexivity).
  rewrite H in Hf; [discriminate|].
  exists {| scheme := py "https"; netloc := py "www.deltawonen.nl:443";
            path := py "/"; params := []; query := []; fragment := [] |}.
  split; [vm_compute; reflexivity|]. split; [by right|]. split.
  - exists (py "www.deltawonen.nl"). split; [vm_compute; reflexivity|].
    unfold ALLOWED_NETLOCS. list_in.
  - cbn [path]. change (py "/") with [47%N]. intros Hx. apply deny_re_spec in Hx.
    + vm_compute in Hx. by destruct Hx.
    + by intros [=]%list_elem_of_singleton.
    + by intros [=]%list_elem_of_singleton.
Qed.

(** ** The loop ends *)

(** X20: the crawl loop ends: with enough fuel [crawl_loop] reaches the
    end of the [while] loop (its condition is false) or an uncaught
    exception, because every iteration either shortens the queue without
    counting, or counts one more visit towards [max_pages]. *)
Lemma crawl_loop_terminates (E : Env) (args : Args) (rp : RobotFileParser) (s : State) :
  exists fuel,
    match crawl_loop E args rp fuel s with
    | Return s' => loop_cond args s' = false
    | Raise _ => True
    end.
Proof.
  remember (Z.to_nat (max_pages args - count s)) as n eqn:Hn. revert s Hn.
  induction n as [n IHn] using lt_wf_ind. intros s Hn.
  remember (length (queue s)) as k eqn:Hk. revert s Hn Hk.
  induction k as [k IHk] using lt_wf_ind. intros s Hn Hk.
  destruct (loop_cond args s) eqn:Hc; [|by exists 0%nat].
  destruct (loop_body E args rp s) as [m|s1] eqn:Hb.
  { exists 1%nat. simpl. by rewrite Hc, Hb. }
  assert (Hstep : forall f, crawl_loop E args rp (S f) s = crawl_loop E args rp f s1).
  { intros f. simpl. by rewrite Hc, Hb. }
  assert (Hlt : count s < max_pages args).
  { unfold loop_cond in Hc. apply andb_true_iff in Hc as [_ Hc]. by apply Z.ltb_lt. }
  destruct (loop_body_cases E args rp s s1 Hb)
    as [[Hq _]|(u & rest & Hq & [[Hu Hs1]|[[Hu (e & He & Hs1)]|[Hu Hv]]])].
  - unfold loop_cond in Hc. rewrite Hq in Hc. discriminate.
  - destruct (IHk (length rest)) with (s := s1) as [f Hf].
    + rewrite Hk, Hq. simpl. lia.
    + by rewrite Hs1.
    + by rewrite Hs1.
    + exists (S f). by rewrite Hstep.
  - destruct (IHk (length rest)) with (s := s1) as [f Hf].
    + rewrite Hk, Hq. simpl. lia.
    + by rewrite Hs1.
    + by rewrite Hs1.
    + exists (S f). by rewrite Hstep.
  - destruct Hv as (st & ct & body & hdrs & puts & evs & _ & _ & Hs1).
    destruct (IHn (Z.to_nat (max_pages args - count s1))) with (s := s1) as [f Hf].
    + rewrite Hn, Hs1. simpl. lia.
    + done.
    + exists (S f). by rewrite Hstep.
Qed.

(** * Further properties of the crawler's functions *)

(** ** White-space normalisation in summarize *)

Lemma split_ws_aux_word cur w s :
  Forall (fun c => is_space c = false) w ->
  split_ws_aux cur (w ++ s) = split_ws_aux (rev w ++ cur) s.
Proof.
  revert cur. induction w as [|c w IH]; intros cur Hw; [done|].
  apply Forall_cons in Hw as [Hc Hw]. simpl. rewrite Hc, IH by done.
  by rewrite <- app_assoc.
Qed.

Lemma split_ws_aux_words cur s :
  Forall (fun c => is_space c = false) cur ->
  Forall is_word (split_ws_aux cur s).
Proof.
  revert cur. induction s as [|c s IH]; intros cur Hcur; simpl.
  - destruct cur as [|x cur]; [constructor|].
    constructor; [|constructor]. split.
    + intros H. apply (f_equal (@length N)) in H. rewrite length_rev in H. discriminate.
    + apply Forall_rev. done.
  - destruct (is_space c) eqn:Hc.
    + destruct cur as [|x cur]; [by apply IH|].
      constructor; [|by apply IH]. split.
      * intros H. apply (f_equal (@length N)) in H. rewrite length_rev in H. discriminate.
      * by apply Forall_rev.
    + apply IH. by constructor.
Qed.

Lemma split_ws_words s : Forall is_word (split_ws s).
Proof. apply split_ws_aux_words. constructor. Qed.

Lemma is_space_SPACE : is_space SPACE = true.
Proof. reflexivity. Qed.

Lemma split_ws_join ws :
  Forall is_word ws -> split_ws (join [SPACE] ws) = ws.
Proof.
  induction ws as [|w ws IH]; intros Hws; [done|].
  apply Forall_cons in Hws as [[Hne Hw] Hws].
  destruct ws as [|w' ws].
  - simpl. unfold split_ws.
    rewrite <- (app_nil_r w) at 1. rewrite split_ws_aux_word by done.
    rewrite app_nil_r. simpl. destruct (rev w) eqn:Hr.
    + apply (f_equal (@length N)) in Hr. rewrite length_rev in Hr.
      destruct w; [done|discriminate].
    + by rewrite <- Hr, rev_involutive.
  - change (join [SPACE] (w :: w' :: ws)) with (w ++ [SPACE] ++ join [SPACE] (w' :: ws)).
    unfold split_ws. rewrite split_ws_aux_word by done. rewrite app_nil_r.
    simpl. destruct (rev w) eqn:Hr.
    + apply (f_equal (@length N)) in Hr. rewrite length_rev in Hr.
      destruct w; [done|discriminate].
    + rewrite <- Hr, rev_involutive. f_equal. by apply IH.
Qed.

(** X1: normalising white space does not change the words of a text, so
    normalising twice is the same as normalising once. *)
Theorem normalize_ws_round_trip (text : str) :
  split_ws (normalize_ws text) = split_ws text /\
  normalize_ws (normalize_ws text) = normalize_ws text.
Proof.
  assert (H : split_ws (normalize_ws text) = split_ws text).
  { unfold normalize_ws. apply split_ws_join, split_ws_words. }
  split; [done|]. unfold normalize_ws at 1. by rewrite H.
Qed.

Lemma split_ws_aux_blank s :
  Forall (fun c => is_space c = true) s -> split_ws_aux [] s = [].
Proof.
  induction s as [|c s IH]; intros Hs; [done|].
  apply Forall_cons in Hs as [Hc Hs]. simpl. rewrite Hc. auto.
Qed.

(** X2: a text that is empty or consists of white space only has the
    empty summary, for every non-negative [max_chars]. *)
Theorem summarize_blank (text : str) (max_chars : Z) :
  Forall (fun c => is_space c = true) text -> 0 <= max_chars ->
  summarize text max_chars = [].
Proof.
  intros Ht Hm. unfold summarize, normalize_ws, split_ws.
  rewrite split_ws_aux_blank by done. simpl.
  unfold slice_to. destruct (Z.leb_spec 0 max_chars); [|lia].
  rewrite take_nil. destruct (Z.ltb_spec max_chars (len (@nil N))); [|done].
  unfold len in *. simpl in *. lia.
Qed.

Lemma summarize_blank_witness :
  summarize [SPACE; NEWLINE; 9%N; 160%N] 1000 = [].
Proof.
  apply summarize_blank; [|lia].
  repeat constructor.
Defined.

(** X3: with a negative [max_chars] the marker is always appended, also to
    an empty text, after the text shortened by [-max_chars] characters from
    its end; the result is longer than [max_chars + 1]. *)
Theorem summarize_negative_max (text : str) (max_chars : Z) :
  max_chars < 0 ->
  summarize text max_chars
    = take (Z.to_nat (len (normalize_ws text) + max_chars)) (normalize_ws text)
      ++ [ELLIPSIS] /\
  max_chars + 1 < len (summarize text max_chars).
Proof.
  intros Hm. unfold summarize. cbv zeta.
  pose proof (len_nonneg (normalize_ws text)) as Hl.
  destruct (Z.ltb_spec max_chars (len (normalize_ws text))); [|lia].
  unfold slice_to. destruct (Z.leb_spec 0 max_chars); [lia|].
  split; [done|]. rewrite len_app.
  pose proof (len_nonneg (take (Z.to_nat (len (normalize_ws text) + max_chars))
                               (normalize_ws text))).
  change (len [ELLIPSIS]) with 1. lia.
Qed.

Lemma summarize_negative_max_witness :
  summarize (py "abc") (-1) = py "ab" ++ [ELLIPSIS] /\ summarize [] (-5) = [ELLIPSIS].
Proof.
  split.
  - apply (summarize_negative_max (py "abc") (-1)). lia.
  - apply (summarize_negative_max [] (-5)). lia.
Defined.

(** ** sha1_text *)

Lemma hex_digit_is_hex d : is_hex (SHA1.hex_digit (N.land d 15)) = true.
Proof.
  assert (Hd : (N.land d 15 < 16)%N).
  { change 15%N with (N.ones 4). rewrite N.land_ones. by apply N.mod_lt. }
  unfold SHA1.hex_digit, is_hex.
  destruct (N.ltb_spec (N.land d 15) 10).
  - apply orb_true_iff. left. apply andb_true_iff. split; apply N.leb_le; lia.
  - apply orb_true_iff. right. apply andb_true_iff. split; apply N.leb_le; lia.
Qed.

Lemma hex8_is_hex w : Forall (fun c => is_hex c = true) (SHA1.hex8 w).
Proof. unfold SHA1.hex8. repeat constructor; apply hex_digit_is_hex. Qed.

(** X4: the hash of any text is 40 characters long, each a lower-case
    hexadecimal digit. *)
Theorem sha1_text_hex (s : str) :
  len (sha1_text s) = 40 /\ Forall (fun c => is_hex c = true) (sha1_text s).
Proof.
  split; [apply sha1_text_len|].
  unfold sha1_text, SHA1.hexdigest.
  destruct (SHA1.digest _) as [[[[h0 h1] h2] h3] h4].
  repeat (apply Forall_app; split); apply hex8_is_hex.
Qed.

(** ** dict.fromkeys, discover_links and get_sitemap_urls *)

Lemma fromkeys_cons y l :
  fromkeys (y :: l) = y :: filter (fun z => negb (str_eqb y z)) (fromkeys l).
Proof. reflexivity. Qed.

Lemma elem_of_fromkeys x l : x ∈ fromkeys l <-> x ∈ l.
Proof.
  induction l as [|y l IH]; [done|]. rewrite fromkeys_cons.
  rewrite !elem_of_cons. split.
  - intros [->|Hx]; [by left|]. apply list_elem_of_filter in Hx as [_ Hx].
    right. by apply IH.
  - intros [->|Hx]; [by left|].
    destruct (decide (x = y)) as [->|Hne]; [by left|]. right.
    apply list_elem_of_filter. split; [|by apply IH].
    unfold str_eqb. rewrite bool_decide_eq_false_2 by congruence. done.
Qed.

Lemma NoDup_fromkeys l : NoDup (fromkeys l).
Proof.
  induction l as [|y l IH]; [constructor|]. rewrite fromkeys_cons.
  apply NoDup_cons. split.
  - intros [Hy _]%list_elem_of_filter. unfold str_eqb in Hy.
    by rewrite bool_decide_eq_true_2 in Hy.
  - by apply NoDup_filter.
Qed.

Lemma filter_other y (l : list str) :
  y ∉ l -> filter (fun z => negb (str_eqb y z)) l = l.
Proof.
  induction l as [|z l IH]; intros Hy; [done|].
  apply not_elem_of_cons in Hy as [Hyz Hy].
  rewrite filter_cons, decide_True; [f_equal; auto|].
  unfold str_eqb. by rewrite (bool_decide_eq_false_2 (y = z)).
Qed.

Lemma fromkeys_NoDup l : NoDup l -> fromkeys l = l.
Proof.
  induction l as [|y l IH]; intros Hnd; [done|].
  apply NoDup_cons in Hnd as [Hy Hnd]. rewrite fromkeys_cons, IH by done.
  f_equal. by apply filter_other.
Qed.

Lemma map_result_Return {A B} (f : A -> result B) l ys :
  map_result f l = Return ys -> Forall2 (fun x y => f x = Return y) l ys.
Proof.
  revert ys. induction l as [|x l IH]; intros ys; simpl.
  - intros [= <-]. constructor.
  - destruct (f x) as [m|y] eqn:Hx; simpl; [discriminate|].
    destruct (map_result f l) as [m|ys']; simpl; [discriminate|].
    intros [= <-]. constructor; auto.
Qed.

Lemma map_result_Raise {A B} (f : A -> result B) l x m :
  x ∈ l -> f x = Raise m -> exists m', map_result f l = Raise m'.
Proof.
  induction l as [|y l IH]; intros Hx Hf; [by apply elem_of_nil in Hx|].
  simpl. destruct (f y) as [my|b] eqn:Hy; simpl; [by eexists|].
  apply elem_of_cons in Hx as [->|Hx]; [congruence|].
  destruct (IH Hx Hf) as [m' ->]. simpl. by eexists.
Qed.

(** X5: the links [discover_links] returns are pairwise different, each is
    the resolved [href] of an anchor of the page, and each passes the
    scope filter. *)
Theorem discover_links_spec (E : Env) (base html : str) (ls : list str) :
  discover_links E base html = Return ls ->
  NoDup ls /\
  forall u, u ∈ ls ->
    is_allowed E u = true /\
    exists href, href ∈ soup_hrefs E html /\ absolutize E base href = Return u.
Proof.
  unfold discover_links.
  destruct (map_result (absolutize E base) (soup_hrefs E html)) as [m|us] eqn:Hm;
    simpl; [discriminate|].
  intros [= <-]. split; [apply NoDup_fromkeys|].
  intros u Hu. apply (proj1 (elem_of_fromkeys _ _)) in Hu.
  apply list_elem_of_filter in Hu as [Ha Hu]. split; [by apply Is_true_true|].
  apply map_result_Return in Hm.
  apply list_elem_of_lookup in Hu as [i Hi].
  destruct (Forall2_lookup_r _ _ _ _ _ Hm Hi) as (href & Hh & Hf).
  exists href. split; [|done]. by apply list_elem_of_lookup_2 in Hh.
Qed.

Lemma discover_links_spec_witness :
  NoDup [Demo.page_c] /\ is_allowed Demo.env Demo.page_c = true.
Proof.
  destruct (discover_links_spec Demo.env Demo.page_a (py "a") [Demo.page_c]) as [H1 H2].
  - vm_compute. reflexivity.
  - split; [exact H1|]. apply H2. by apply list_elem_of_singleton.
Defined.

(** X6: the sitemap seeds are pairwise different and all pass the scope
    filter, whatever the sitemap request gives (an exception, another
    status, another content type, unparsable XML give no seed). *)
Theorem get_sitemap_urls_spec (E : Env) :
  NoDup (get_sitemap_urls E) /\
  forall u, u ∈ get_sitemap_urls E -> is_allowed E u = true.
Proof.
  unfold get_sitemap_urls. split; [apply NoDup_fromkeys|].
  intros u Hu. apply (proj1 (elem_of_fromkeys _ _)) in Hu.
  change (concat (imap (fun n sm => sitemap_urls E n sm) SITEMAPS))
    with (sitemap_urls E 0 (py "https://www.deltawonen.nl/sitemap.xml") ++ []) in Hu.
  rewrite app_nil_r in Hu. unfold sitemap_urls in Hu.
  destruct (requests_get E 0 _) as [m|r]; simpl in Hu; [by apply elem_of_nil in Hu|].
  destruct ((status_code r =? 200) && _); simpl in Hu; [|by apply elem_of_nil in Hu].
  destruct (soup_locs E (r_text r)) as [m|locs]; simpl in Hu;
    [by apply elem_of_nil in Hu|].
  apply list_elem_of_filter in Hu as [Ha _]. by apply Is_true_true.
Qed.

(** ** guess_filename *)

Lemma star_rems_spec p s r :
  r ∈ star_rems p s -> exists w, s = w ++ r /\ Forall (fun c => p c = true) w.
Proof.
  induction s as [|c s IH]; simpl.
  - intros ->%list_elem_of_singleton. by exists [].
  - destruct (p c) eqn:Hc.
    + intros [Hr| ->%list_elem_of_singleton]%elem_of_app; [|by exists []].
      destruct (IH Hr) as (w & -> & Hw). exists (c :: w). split; [done|by constructor].
    + intros ->%list_elem_of_singleton. by exists [].
Qed.

Lemma in_re_match_plus ic p cap s x :
  x ∈ re_match ic (Plus p) cap s ->
  exists c w rem, s = c :: w ++ rem /\ p c = true /\
                  Forall (fun c => p c = true) w /\ x = (cap, rem).
Proof.
  simpl. destruct s as [|c s]; [by intros ?%elem_of_nil|].
  destruct (p c) eqn:Hc; [|by intros ?%elem_of_nil].
  intros (rem & -> & Hr)%list_elem_of_fmap.
  apply star_rems_spec in Hr as (w & -> & Hw). by exists c, w, rem.
Qed.

Lemma re_search_head ic r s cap :
  re_search ic r s = Some cap -> exists t rem, (cap, rem) ∈ re_match ic r None t.
Proof.
  induction s as [|c s IH]; simpl.
  - destruct (re_match ic r None []) as [|[cap' rem] l] eqn:Hm; [discriminate|].
    intros [= <-]. exists [], rem. rewrite Hm. by left.
  - destruct (re_match ic r None (c :: s)) as [|[cap' rem] l] eqn:Hm; [done|].
    intros [= <-]. exists (c :: s), rem. rewrite Hm. by left.
Qed.

(** Group 1 of the file name pattern is never empty and holds no double
    quote. *)
Lemma filename_capture cap t x :
  x ∈ re_match false FILENAME_RE cap t ->
  exists g, x.1 = Some g /\ g <> [] /\ Forall (fun c => not_quote c = true) g.
Proof.
  unfold FILENAME_RE. intros H.
  apply in_re_match_seq in H as (c1 & s1 & _ & H).
  apply in_re_match_seq in H as (c2 & s2 & _ & H).
  apply in_re_match_seq in H as (c3 & s3 & H3 & H).
  change (re_match false (Group1 (Plus not_quote)) c2 s2)
    with (map (fun '(_, r) => (Some (take (length s2 - length r) s2), r))
              (re_match false (Plus not_quote) c2 s2)) in H3.
  apply list_elem_of_fmap in H3 as ([c' r] & [= -> ->] & H3).
  apply in_re_match_plus in H3 as (c & w & rem & -> & Hc & Hw & [= _ ->]).
  assert (Hg : take (length (c :: w ++ rem) - length rem) (c :: w ++ rem) = c :: w).
  { replace (length (c :: w ++ rem) - length rem)%nat with (length (c :: w)).
    - exact (take_app_length (c :: w) rem).
    - simpl. rewrite length_app. lia. }
  rewrite Hg in H.
  change (re_match false (Opt (Chr 34%N)) (Some (c :: w)) rem)
    with (re_match false (Chr 34%N) (Some (c :: w)) rem ++ [(Some (c :: w), rem)]) in H.
  exists (c :: w). split; [|split; [done|by constructor]].
  apply elem_of_app in H as [H| ->%list_elem_of_singleton]; [|done].
  by apply in_re_match_chr in H as (? & ? & _ & _ & ->).
Qed.

Lemma sub_runs_safe repl b s :
  Forall (fun c => safe_char c = true) repl ->
  Forall (fun c => safe_char c = true)
         (sub_runs (fun c => negb (safe_char c)) repl b s).
Proof.
  intros Hr. revert b. induction s as [|c s IH]; intros b; simpl; [constructor|].
  destruct (safe_char c) eqn:Hc; simpl.
  - constructor; auto.
  - apply Forall_app. split; [by destruct b; [constructor|]|auto].
Qed.

Lemma sub_runs_nonempty p repl s :
  repl <> [] -> s <> [] -> sub_runs p repl false s <> [].
Proof.
  intros Hr Hs. destruct s as [|c s]; [done|]. simpl.
  destruct (p c); [|done]. destruct repl; [done|]. done.
Qed.

(** The sanitisation leaves a name of safe characters as it is. *)
Lemma sub_runs_id repl s :
  Forall (fun c => safe_char c = true) s ->
  sub_runs (fun c => negb (safe_char c)) repl false s = s.
Proof.
  induction s as [|c s IH]; intros Hs; [done|].
  apply Forall_cons in Hs as [Hc Hs]. simpl. rewrite Hc. simpl. f_equal. auto.
Qed.

Lemma guess_filename_chars (E : Env) (u : str) (hdrs : gmap str str) (f : str) :
  guess_filename E u hdrs = Return f ->
  f <> [] /\ Forall (fun c => safe_char c = true) f /\
  sub_runs (fun c => negb (safe_char c)) (py "_") false f = f.
Proof.
  unfold guess_filename. destruct (urlparse E u) as [m|p]; [discriminate|].
  cbv beta iota delta [bind].
  set (name0 := match basename (path p) with [] => py "download" | b => b end).
  set (cd := match hdrs !! py "Content-Disposition" with
             | Some (c :: v) => c :: v
             | _ => default [] (hdrs !! py "content-disposition")
             end).
  assert (Hn0 : name0 <> []).
  { unfold name0. by destruct (basename (path p)). }
  assert (Hname : match re_search false FILENAME_RE cd with
                  | Some (Some g) => g
                  | _ => name0
                  end <> []).
  { destruct (re_search false FILENAME_RE cd) as [[g|]|] eqn:Hs; try done.
    apply re_search_head in Hs as (t & rem & Hin).
    apply filename_capture in Hin as (g' & [= <-] & Hg & _). done. }
  intros [= <-].
  assert (Hsafe : Forall (fun c => safe_char c = true)
            (sub_runs (fun c => negb (safe_char c)) (py "_") false
               match re_search false FILENAME_RE cd with
               | Some (Some g) => g
               | _ => name0
               end)).
  { apply sub_runs_safe. by repeat constructor. }
  split; [by apply sub_runs_nonempty|]. split; [done|]. by apply sub_runs_id.
Qed.

(** X7: the file name [guess_filename] returns is never empty and consists
    of letters, digits, '.', '_' and '-' only (so it holds no path
    separator), whatever the URL and the Content-Disposition header;
    sanitising it again changes nothing. *)
Theorem guess_filename_safe (E : Env) (u : str) (hdrs : gmap str str) (f : str) :
  guess_filename E u hdrs = Return f ->
  f <> [] /\ Forall (fun c => safe_char c = true) f /\
  sub_runs (fun c => negb (safe_char c)) (py "_") false f = f.
Proof. apply guess_filename_chars. Qed.

Lemma guess_filename_safe_witness :
  py "b.pdf" <> [] /\ Forall (fun c => safe_char c = true) (py "b.pdf").
Proof.
  destruct (guess_filename_safe Demo.env Demo.page_pdf ∅ (py "b.pdf")) as (H1 & H2 & _).
  - vm_compute. reflexivity.
  - exact (conj H1 H2).
Defined.

(** ** Invariants of a run *)

Lemma main_split E args fuel s :
  main E args fuel = Return s ->
  exists rp s0, main_init E args = Return (rp, s0) /\
                crawl_loop E args rp fuel s0 = Return s.
Proof.
  unfold main. destruct (main_init E args) as [m|[rp s0]]; simpl; [discriminate|].
  intros H. by exists rp, s0.
Qed.

Lemma main_init_state E args rp s0 :
  main_init E args = Return (rp, s0) ->
  queue s0 = filter (fun u => seed_ok E rp u) (get_sitemap_urls E ++ start args) /\
  seen s0 = ∅ /\ count s0 = 0 /\
  log s0 = EvRobots (rp_url rp) :: map EvSitemap SITEMAPS.
Proof.
  unfold main_init. destruct (start args) as [|root ?]; [discriminate|].
  destruct (get_robot_parser E root) as [m|rp']; simpl; [discriminate|].
  intros [= <- <-]. done.
Qed.

(** Induction over the iterations of the loop. *)
Lemma crawl_loop_ind E args rp (P : State -> Prop) fuel s s' :
  P s ->
  (forall s1 s2, P s1 -> loop_cond args s1 = true ->
                 loop_body E args rp s1 = Return s2 -> P s2) ->
  crawl_loop E args rp fuel s = Return s' -> P s'.
Proof.
  intros Hs Hstep. revert s Hs. induction fuel as [|fuel IH]; intros s Hs H; simpl in H.
  - by injection H as <-.
  - destruct (loop_cond args s) eqn:Hc; [|by injection H as <-].
    destruct (loop_body E args rp s) as [m|s1] eqn:Hb; simpl in H; [discriminate|].
    eauto.
Qed.

Lemma sleeps_app l1 l2 : sleeps (l1 ++ l2) = sleeps l1 ++ sleeps l2.
Proof. apply omap_app. Qed.

Lemma sleeps_none evs : (forall d, EvSleep d ∉ evs) -> sleeps evs = [].
Proof.
  intros H. apply elem_of_nil_inv. intros d Hd.
  apply list_elem_of_omap in Hd as (e & He & Hd).
  destruct e; try discriminate. injection Hd as ->. by apply (H d).
Qed.



Lemma seen_fetched_inv (E : Env) (args : Args) (fuel : nat) (s : State) :
  main E args fuel = Return s ->
  seen s = list_to_set (fetched (log s)).
Proof.
  intros (rp & s0 & Hi & Hl)%main_split.
  refine (crawl_loop_ind E args rp
            (fun s => seen s = list_to_set (fetched (log s))) fuel s0 s _ _ Hl).
  - destruct (main_init_state E args rp s0 Hi) as (_ & Hs & _ & Hlog).
    by rewrite Hs, Hlog.
  - intros s1 s2 IH _ Hb.
    destruct (loop_body_cases E args rp s1 s2 Hb)
      as [[_ ->]|(u & rest & Hq & [[Hu ->]|[[Hu (e & He & ->)]|[Hu Hv]]])]; [done..| |].
    + simpl. rewrite fetched_app, list_to_set_app_L, <- IH. simpl.
      rewrite union_empty_r_L. apply union_comm_L.
    + destruct Hv as (st & ct & body & hdrs & puts & evs & Hf & Hp & ->).
      destruct (process_spec _ _ _ _ _ _ _ _ _ _ _ _ Hp) as (Hfe & _).
      simpl. rewrite fetched_app, list_to_set_app_L, <- IH. simpl.
      rewrite fetched_app, Hfe. simpl. rewrite union_empty_r_L. apply union_comm_L.
Qed.

(** X9: the seen set is exactly the set of the URLs fetched so far. *)
Theorem seen_is_fetched (E : Env) (args : Args) (fuel : nat) (s : State) :
  main E args fuel = Return s ->
  seen s = list_to_set (fetched (log s)).
Proof. apply seen_fetched_inv. Qed.

Lemma seen_is_fetched_witness :
  seen (Demo.after 30) = list_to_set (fetched (log (Demo.after 30))).
Proof.
  apply (seen_is_fetched Demo.env Demo.args 30). vm_compute. reflexivity.
Defined.

(** X10: the visit counter is the number of sleeps done, it never passes
    the page budget, and every sleep lasts the configured delay. *)
Theorem budget_and_pacing (E : Env) (args : Args) (fuel : nat) (s : State) :
  main E args fuel = Return s ->
  count s = len (sleeps (log s)) /\
  count s <= Z.max 0 (max_pages args) /\
  Forall (fun d => d = delay args) (sleeps (log s)).
Proof.
  intros (rp & s0 & Hi & Hl)%main_split.
  refine (crawl_loop_ind E args rp
            (fun s => count s = len (sleeps (log s)) /\
                      count s <= Z.max 0 (max_pages args) /\
                      Forall (fun d => d = delay args) (sleeps (log s)))
            fuel s0 s _ _ Hl).
  - destruct (main_init_state E args rp s0 Hi) as (_ & _ & Hc & Hlog).
    rewrite Hc, Hlog. split; [done|]. split; [lia|constructor].
  - intros s1 s2 (IH1 & IH2 & IH3) Hc Hb.
    destruct (loop_body_cases E args rp s1 s2 Hb)
      as [[_ ->]|(u & rest & Hq & [[Hu ->]|[[Hu (e & He & ->)]|[Hu Hv]]])]; [done..| |].
    + simpl. rewrite sleeps_app. simpl. by rewrite app_nil_r.
    + destruct Hv as (st & ct & body & hdrs & puts & evs & Hf & Hp & ->).
      destruct (process_spec _ _ _ _ _ _ _ _ _ _ _ _ Hp) as (_ & _ & _ & Hns).
      simpl. rewrite sleeps_app. simpl. rewrite sleeps_app, (sleeps_none evs Hns).
      simpl. rewrite len_app. change (len [delay args]) with 1.
      unfold loop_cond in Hc. apply andb_true_iff in Hc as [_ Hc%Z.ltb_lt].
      split; [lia|]. split; [lia|]. apply Forall_app. split; [done|by constructor].
Qed.

Lemma budget_and_pacing_witness :
  count (Demo.after 30) = len (sleeps (log (Demo.after 30))).
Proof.
  apply (budget_and_pacing Demo.env Demo.args 30). vm_compute. reflexivity.
Defined.

(** X11: with a page budget of zero or less nothing is fetched and no
    record is written. *)
Theorem no_budget_no_fetch (E : Env) (args : Args) (fuel : nat) (s : State) :
  max_pages args <= 0 ->
  main E args fuel = Return s ->
  fetched (log s) = [] /\ raw_pages (log s) = [] /\ count s = 0.
Proof.
  intros Hm (rp & s0 & Hi & Hl)%main_split.
  destruct (main_init_state E args rp s0 Hi) as (_ & _ & Hc & Hlog).
  assert (Hs : s = s0).
  { destruct fuel as [|fuel]; simpl in Hl; [by injection Hl|].
    unfold loop_cond in Hl. rewrite Hc in Hl.
    destruct (Z.ltb_spec 0 (max_pages args)); [lia|].
    rewrite andb_false_r in Hl. by injection Hl. }
  subst s. by rewrite Hlog, Hc.
Qed.

Lemma no_budget_no_fetch_witness :
  exists s, main Demo.env Demo.args0 5 = Return s /\ fetched (log s) = [].
Proof.
  eexists. split; [vm_compute; reflexivity|].
  eapply (no_budget_no_fetch Demo.env Demo.args0 5).
  - simpl. lia.
  - vm_compute. reflexivity.
Defined.

(** ** The records of a run *)

Lemma summarize_len_le text m : 0 <= m -> len (summarize text m) <= m + 1.
Proof.
  intros Hm. unfold summarize. cbv zeta. rewrite len_app, slice_to_len by done.
  destruct (Z.ltb_spec m (len (normalize_ws text)));
    [change (len [ELLIPSIS]) with 1 | change (len (@nil N)) with 0]; lia.
Qed.

(** What a QA record written by a visit looks like, and where the links
    of a page record come from. *)
Lemma process_records E args rp sn u st ct body hdrs now puts evs :
  process E args rp sn u st ct body hdrs now = Return (puts, evs) ->
  (forall r, EvQA r ∈ evs ->
     exists p, EvPage p ∈ evs /\ status p = 200 /\ sources r = [url p] /\
       answer r = summarize (text p) 1000 /\
       tags r = [py "deltawonen"; content_type p] /\
       content_type p ∈ [py "html"; py "pdf"; py "docx"]) /\
  (forall p, EvPage p ∈ evs ->
     links p = [] \/ exists html, discover_links E u html = Return (links p)).
Proof.
  unfold process. intros H.
  destruct (st =? 200) eqn:Hst.
  - apply Z.eqb_eq in Hst as ->.
    destruct (contains (py "text/html") (lower ct)).
    + destruct (clean_html_to_text E (decode_ignore E body)) as [m|[ttl txt0]];
        simpl in H; [discriminate|].
      destruct (discover_links E u (decode_ignore E body)) as [m|lnks] eqn:Hd;
        simpl in H; [discriminate|].
      injection H as <- <-. split.
      * intros r Hr. apply elem_of_cons in Hr as [Hr|Hr]; [discriminate|].
        destruct (nonempty ttl && nonempty _); [|by apply elem_of_nil in Hr].
        apply list_elem_of_singleton in Hr. injection Hr as ->.
        eexists. split; [by left|]. repeat split; try done. list_in.
      * intros p Hp. apply elem_of_cons in Hp as [Hp|Hp].
        -- injection Hp as ->. right. by eexists.
        -- destruct (nonempty ttl && nonempty _); no_event Hp.
    + destruct (contains (py "application/pdf") (lower ct) || endswith (py ".pdf") (lower u)).
      { destruct (guess_filename E u hdrs) as [m|fname]; simpl in H; [discriminate|].
        injection H as <- <-. split.
        - intros r Hr. apply elem_of_cons in Hr as [Hr|Hr]; [discriminate|].
          apply elem_of_cons in Hr as [Hr|Hr]; [discriminate|].
          apply list_elem_of_singleton in Hr. injection Hr as ->.
          eexists. split; [right; by left|]. repeat split; try done. list_in.
        - intros p Hp. apply elem_of_cons in Hp as [Hp|Hp]; [discriminate|].
          apply elem_of_cons in Hp as [Hp|Hp]; [injection Hp as ->; by left|].
          no_event Hp. }
      destruct (contains _ (lower ct) || endswith (py ".docx") (lower u)).
      { destruct (guess_filename E u hdrs) as [m|fname]; simpl in H; [discriminate|].
        injection H as <- <-. split.
        - intros r Hr. apply elem_of_cons in Hr as [Hr|Hr]; [discriminate|].
          apply elem_of_cons in Hr as [Hr|Hr]; [discriminate|].
          apply list_elem_of_singleton in Hr. injection Hr as ->.
          eexists. split; [right; by left|]. repeat split; try done. list_in.
        - intros p Hp. apply elem_of_cons in Hp as [Hp|Hp]; [discriminate|].
          apply elem_of_cons in Hp as [Hp|Hp]; [injection Hp as ->; by left|].
          no_event Hp. }
      destruct (include_docs args && _).
      { destruct (guess_filename E u hdrs) as [m|fname]; simpl in H; [discriminate|].
        injection H as <- <-. split.
        - intros r Hr. no_event Hr.
        - intros p Hp. simpl in Hp. apply elem_of_cons in Hp as [Hp|Hp]; [discriminate|].
          apply list_elem_of_singleton in Hp. injection Hp as ->. by left. }
      simpl in H. injection H as <- <-. split.
      * intros r Hr. no_event Hr.
      * intros p Hp. apply list_elem_of_singleton in Hp. injection Hp as ->. by left.
  - injection H as <- <-. split.
    + intros r Hr. no_event Hr.
    + intros p Hp. apply list_elem_of_singleton in Hp. injection Hp as ->. by left.
Qed.

Lemma discover_links_in_scope E base html ls :
  discover_links E base html = Return ls ->
  NoDup ls /\ forall u, u ∈ ls -> is_allowed E u = true.
Proof.
  unfold discover_links.
  destruct (map_result (absolutize E base) (soup_hrefs E html)) as [m|us];
    simpl; [discriminate|].
  intros [= <-]. split; [apply NoDup_fromkeys|].
  intros u Hu. apply (proj1 (elem_of_fromkeys _ _)) in Hu.
  apply list_elem_of_filter in Hu as [Ha _]. by apply Is_true_true.
Qed.

(** X12: every QA record of a run belongs to a page record of the run with
    status 200 and content type html, pdf or docx: its only source is that
    page's URL, its tags are "deltawonen" and the content type, and its
    answer is the summary of the page's text, at most 1001 characters. *)
Theorem qa_records_spec (E : Env) (args : Args) (fuel : nat) (s : State) (r : QAItem) :
  main E args fuel = Return s ->
  EvQA r ∈ log s ->
  exists p, EvPage p ∈ log s /\ status p = 200 /\ sources r = [url p] /\
    tags r = [py "deltawonen"; content_type p] /\
    content_type p ∈ [py "html"; py "pdf"; py "docx"] /\
    answer r = summarize (text p) 1000 /\ len (answer r) <= 1001.
Proof.
  intros (rp & s0 & Hi & Hl)%main_split. revert r.
  refine (crawl_loop_ind E args rp
            (fun s => forall r, EvQA r ∈ log s ->
               exists p, EvPage p ∈ log s /\ status p = 200 /\ sources r = [url p] /\
                 tags r = [py "deltawonen"; content_type p] /\
                 content_type p ∈ [py "html"; py "pdf"; py "docx"] /\
                 answer r = summarize (text p) 1000 /\ len (answer r) <= 1001)
            fuel s0 s _ _ Hl).
  - destruct (main_init_state E args rp s0 Hi) as (_ & _ & _ & Hlog).
    rewrite Hlog. intros r Hr. no_event Hr.
  - intros s1 s2 IH _ Hb.
    destruct (loop_body_cases E args rp s1 s2 Hb)
      as [[_ ->]|(u & rest & Hq & [[Hu ->]|[[Hu (e & He & ->)]|[Hu Hv]]])]; [done..| |].
    + simpl. intros r [Hr|Hr]%elem_of_app; [|no_event Hr].
      destruct (IH r Hr) as (p & Hp & H). exists p. split; [|done].
      apply elem_of_app. by left.
    + destruct Hv as (st & ct & body & hdrs & puts & evs & Hf & Hp & ->).
      destruct (process_records _ _ _ _ _ _ _ _ _ _ _ _ Hp) as [Hqa _].
      simpl. intros r [Hr|Hr]%elem_of_app.
      * destruct (IH r Hr) as (p & Hin & H). exists p. split; [|done].
        apply elem_of_app. by left.
      * apply elem_of_cons in Hr as [Hr|Hr]; [discriminate|].
        apply elem_of_app in Hr as [Hr|Hr]; [|no_event Hr].
        destruct (Hqa r Hr) as (p & Hin & H1 & H2 & H3 & H4 & H5).
        exists p. split.
        { apply elem_of_app. right. right. apply elem_of_app. by left. }
        repeat split; try done. rewrite H3. by apply summarize_len_le.
Qed.

Lemma qa_records_spec_witness :
  exists p, EvPage p ∈ log (Demo.after 30) /\ status p = 200 /\
            content_type p = py "html".
Proof.
  destruct (qa_records_spec Demo.env Demo.args 30 (Demo.after 30)
              (qa_item (py "Titel root") (summarize (Demo.words 60) 1000)
                       (py "html") Demo.root))
    as (p & H1 & H2 & _ & H3 & _).
  - vm_compute. reflexivity.
  - apply (list_elem_of_lookup_2 _ 4%nat). vm_compute. reflexivity.
  - exists p. split; [done|]. split; [done|]. by injection H3.
Defined.

(** X13: the links stored in any page record of a run are pairwise
    different and all pass the scope filter. *)
Theorem page_links_in_scope (E : Env) (args : Args) (fuel : nat) (s : State) (p : PageItem) :
  main E args fuel = Return s ->
  EvPage p ∈ log s ->
  NoDup (links p) /\ forall u, u ∈ links p -> is_allowed E u = true.
Proof.
  intros (rp & s0 & Hi & Hl)%main_split. revert p.
  refine (crawl_loop_ind E args rp
            (fun s => forall p, EvPage p ∈ log s ->
               NoDup (links p) /\ forall u, u ∈ links p -> is_allowed E u = true)
            fuel s0 s _ _ Hl).
  - destruct (main_init_state E args rp s0 Hi) as (_ & _ & _ & Hlog).
    rewrite Hlog. intros p Hp. no_event Hp.
  - intros s1 s2 IH _ Hb.
    destruct (loop_body_cases E args rp s1 s2 Hb)
      as [[_ ->]|(u & rest & Hq & [[Hu ->]|[[Hu (e & He & ->)]|[Hu Hv]]])]; [done..| |].
    + simpl. intros p [Hp|Hp]%elem_of_app; [auto|].
      apply elem_of_cons in Hp as [Hp|Hp]; [discriminate|].
      apply list_elem_of_singleton in Hp. injection Hp as ->. simpl.
      split; [constructor|]. by intros ? ?%elem_of_nil.
    + destruct Hv as (st & ct & body & hdrs & puts & evs & Hf & Hp & ->).
      destruct (process_records _ _ _ _ _ _ _ _ _ _ _ _ Hp) as [_ Hl'].
      simpl. intros p [Hin|Hin]%elem_of_app; [auto|].
      apply elem_of_cons in Hin as [Hin|Hin]; [discriminate|].
      apply elem_of_app in Hin as [Hin|Hin]; [|no_event Hin].
      destruct (Hl' p Hin) as [->|(html & Hd)].
      * split; [constructor|]. by intros ? ?%elem_of_nil.
      * by apply (discover_links_in_scope E u html).
Qed.

Lemma page_links_in_scope_witness :
  NoDup (links (Demo.record_at 3)) /\
  forall u, u ∈ links (Demo.record_at 3) -> is_allowed Demo.env u = true.
Proof.
  apply (page_links_in_scope Demo.env Demo.args 30 (Demo.after 30) (Demo.record_at 3)).
  - vm_compute. reflexivity.
  - apply (list_elem_of_lookup_2 _ 3%nat). vm_compute. reflexivity.
Defined.

(** ** Robots, sitemap and extraction failures *)

(** X14: when the server answers the robots.txt request with a 4xx status
    other than 401 and 403 (no robots.txt), every URL is allowed. *)
Theorem robots_missing_allows_all (E : Env) (root : str) (rp : RobotFileParser) (code : Z) :
  get_robot_parser E root = Return rp ->
  urlopen E (rp_url rp) = UrlopenHTTPError code ->
  400 <= code < 500 -> code <> 401 -> code <> 403 ->
  forall u, allowed_by_robots E rp u = true.
Proof.
  unfold get_robot_parser.
  destruct (urljoin E root (py "/robots.txt")) as [m|ru]; simpl; [discriminate|].
  intros H. injection H as <-.
  assert (Hurl : rp_url (try_except (rp_read E (new_parser ru)) (fun _ => new_parser ru)) = ru).
  { destruct (rp_read E (new_parser ru)) as [m|rp'] eqn:Hr; simpl; [done|].
    by rewrite (rp_read_url _ _ _ Hr). }
  rewrite Hurl. unfold rp_read. simpl. intros -> Hc H1 H2 u.
  apply Z.eqb_neq in H1, H2. rewrite H1, H2. simpl.
  destruct (Z.leb_spec 400 code); [|lia]. destruct (Z.ltb_spec code 500); [|lia].
  reflexivity.
Qed.

Lemma robots_missing_allows_all_witness :
  allowed_by_robots Demo.env Demo.rp Demo.page_pdf = true.
Proof.
  apply (robots_missing_allows_all Demo.env Demo.root Demo.rp 404).
  - vm_compute. reflexivity.
  - reflexivity.
  - lia.
  - discriminate.
  - discriminate.
Defined.

(** X15: when the sitemap cannot be used (the request raises, the status
    is not 200, the content type does not mention xml, or the XML parser
    raises), the queue is seeded from the start URLs alone, filtered by
    scope and robots, and [main] goes on. *)
Theorem sitemap_failure_keeps_start_urls (E : Env) (args : Args)
    (rp : RobotFileParser) (s0 : State) :
  sitemap_unusable E ->
  main_init E args = Return (rp, s0) ->
  queue s0 = filter (fun u => seed_ok E rp u) (start args).
Proof.
  intros Hg Hi. destruct (main_init_state E args rp s0 Hi) as (-> & _).
  assert (Hs : get_sitemap_urls E = []).
  { unfold get_sitemap_urls.
    change (concat (imap (fun n sm => sitemap_urls E n sm) SITEMAPS))
      with (sitemap_urls E 0 (py "https://www.deltawonen.nl/sitemap.xml") ++ []).
    unfold sitemap_urls. unfold sitemap_unusable in Hg.
    destruct (requests_get E 0 _) as [m|r]; [done|].
    cbv beta iota delta [bind try_except].
    destruct Hg as [Hg|[Hg|[m Hg]]].
    - apply Z.eqb_neq in Hg. by rewrite Hg.
    - rewrite Hg, andb_false_r. done.
    - rewrite Hg. by destruct (_ && _). }
  by rewrite Hs.
Qed.

Lemma sitemap_failure_keeps_start_urls_witness :
  match main_init Demo.no_sitemap Demo.args with
  | Return (rp, s0) =>
      queue s0 = filter (fun u => seed_ok Demo.no_sitemap rp u) (start Demo.args)
  | Raise _ => False
  end.
Proof.
  destruct (main_init Demo.no_sitemap Demo.args) as [m|[rp s0]] eqn:Hi.
  - vm_compute in Hi. discriminate.
  - apply (sitemap_failure_keeps_start_urls Demo.no_sitemap Demo.args rp s0);
      [exact I|exact Hi].
Defined.



(** X17: nothing catches an exception of urljoin: when resolving one link
    of an HTML page raises, [discover_links] raises, the iteration raises
    before any record of the page is written, and the run ends there. *)
Theorem unresolvable_link_ends_run
    (E : Env) (args : Args) (rp : RobotFileParser) (s : State)
    (u : str) (rest : list str) (r : Response) (tt : str * str) (href m : str) :
  queue s = u :: rest -> u ∉ seen s ->
  requests_get E (nreq s) u = Return r ->
  status_code r = 200 ->
  contains (py "text/html") (lower (ci_get (py "content-type") (headers r))) = true ->
  clean_html_to_text E (decode_ignore E (content r)) = Return tt ->
  href ∈ soup_hrefs E (decode_ignore E (content r)) ->
  urljoin E u (strip href) = Raise m ->
  exists m',
    loop_body E args rp s = Raise m' /\
    forall fuel, loop_cond args s = true ->
      crawl_loop E args rp (S fuel) s = Raise m'.
Proof.
  intros Hq Hu Hr Hst Hh Hc Hin Hj.
  assert (Hf : fetch E (nreq s) u
               = Return (status_code r, ci_get (py "content-type") (headers r),
                         content r, list_to_map (headers r)))
    by (unfold fetch; by rewrite Hr).
  destruct (map_result_Raise (absolutize E u) _ href m Hin Hj) as [m' Hm].
  assert (Hb : loop_body E args rp s = Raise m').
  { rewrite (loop_body_visit E args rp s u rest _ _ _ _ Hq Hu Hf).
    unfold process. rewrite Hst, Hh, Hc. destruct tt as [ttl txt0]. simpl.
    unfold discover_links. by rewrite Hm. }
  exists m'. split; [done|]. intros fuel Hl. simpl. by rewrite Hl, Hb.
Qed.

Lemma unresolvable_link_ends_run_witness :
  exists m', loop_body Demo.bad_href Demo.args Demo.rp (Demo.pending Demo.page_a) = Raise m'.
Proof.
  destruct (unresolvable_link_ends_run Demo.bad_href Demo.args Demo.rp
              (Demo.pending Demo.page_a) Demo.page_a []
              (Demo.response 200 Demo.html_headers "a")
              (py "Titel a", Demo.words 60) Demo.page_c (py "Invalid IPv6 URL"))
    as (m' & H & _).
  - reflexivity.
  - apply not_elem_of_empty.
  - vm_compute. reflexivity.
  - reflexivity.
  - vm_compute. reflexivity.
  - vm_compute. reflexivity.
  - apply list_elem_of_singleton. vm_compute. reflexivity.
  - vm_compute. reflexivity.
  - by exists m'.
Defined.

(** ** Runs that end normally *)









Lemma html_qa_rule_witness :
  exists p, raw_pages [EvPage p] = [p] /\
    (qa_records [EvPage p] <> [] <-> title p <> [] /\ text p <> []).
Proof.
  destruct (html_qa_rule Demo.env Demo.args Demo.rp ∅ Demo.page_empty
              (py "text/html; charset=utf-8") (py "empty") ∅ (py "now") []
              [EvPage {| url := Demo.page_empty; content_type := py "html"; title := [];
                         text := []; status := 200; fetched_at := py "now";
                         sha1 := py "da39a3ee5e6b4b0d3255bfef95601890afd80709";
                         links := [] |}])
    as (p & Hp & Hiff).
  - vm_compute. reflexivity.
  - vm_compute. reflexivity.
  - injection Hp as <-. eexists. split; [reflexivity|exact Hiff].
Defined.

(** ** Assets *)

Lemma process_assets E args rp sn u st ct body hdrs now puts evs f d :
  process E args rp sn u st ct body hdrs now = Return (puts, evs) ->
  EvAsset f d ∈ evs -> guess_filename E u hdrs = Return f /\ d = body.
Proof.
  unfold process. intros H Hin.
  destruct (st =? 200); [|injection H as <- <-; no_event Hin].
  destruct (contains (py "text/html") (lower ct)).
  - destruct (clean_html_to_text E (decode_ignore E body)) as [m|[ttl txt0]];
      simpl in H; [discriminate|].
    destruct (discover_links E u (decode_ignore E body)) as [m|lnks];
      simpl in H; [discriminate|].
    injection H as <- <-. destruct (nonempty ttl && nonempty _); no_event Hin.
  - destruct (contains (py "application/pdf") (lower ct) || endswith (py ".pdf") (lower u)).
    { destruct (guess_filename E u hdrs) as [m|fname]; simpl in H; [discriminate|].
      injection H as <- <-. apply elem_of_cons in Hin as [Hin|Hin]; [by injection Hin as -> ->|].
      no_event Hin. }
    destruct (contains _ (lower ct) || endswith (py ".docx") (lower u)).
    { destruct (guess_filename E u hdrs) as [m|fname]; simpl in H; [discriminate|].
      injection H as <- <-. apply elem_of_cons in Hin as [Hin|Hin]; [by injection Hin as -> ->|].
      no_event Hin. }
    destruct (include_docs args && _).
    + destruct (guess_filename E u hdrs) as [m|fname]; simpl in H; [discriminate|].
      injection H as <- <-. simpl in Hin.
      apply elem_of_cons in Hin as [Hin|Hin]; [by injection Hin as -> ->|].
      no_event Hin.
    + simpl in H. injection H as <- <-. no_event Hin.
Qed.

(** X19: every file a run saves under data/assets is the body of a
    response to a fetched URL, saved under a name that is not empty and
    made of letters, digits, '.', '_' and '-' only. *)
Theorem assets_have_safe_names (E : Env) (args : Args) (fuel : nat) (s : State)
    (f : str) (d : bytes) :
  main E args fuel = Return s ->
  EvAsset f d ∈ log s ->
  f <> [] /\ Forall (fun c => safe_char c = true) f /\
  exists u n r, u ∈ fetched (log s) /\ requests_get E n u = Return r /\ d = content r.
Proof.
  intros (rp & s0 & Hi & Hl)%main_split. revert f d.
  refine (crawl_loop_ind E args rp
            (fun s => forall f d, EvAsset f d ∈ log s ->
               f <> [] /\ Forall (fun c => safe_char c = true) f /\
               exists u n r, u ∈ fetched (log s) /\ requests_get E n u = Return r /\
                             d = content r)
            fuel s0 s _ _ Hl).
  - destruct (main_init_state E args rp s0 Hi) as (_ & _ & _ & Hlog).
    rewrite Hlog. intros f d Hin. no_event Hin.
  - intros s1 s2 IH _ Hb.
    assert (Hold : forall l f d, EvAsset f d ∈ log s1 ->
              f <> [] /\ Forall (fun c => safe_char c = true) f /\
              exists u n r, u ∈ fetched (log s1 ++ l) /\
                            requests_get E n u = Return r /\ d = content r).
    { intros l f d Hin. destruct (IH f d Hin) as (H1 & H2 & u & n & r & H3 & H4).
      split; [done|]. split; [done|]. exists u, n, r. split; [|done].
      rewrite fetched_app. apply elem_of_app. by left. }
    destruct (loop_body_cases E args rp s1 s2 Hb)
      as [[_ ->]|(u & rest & Hq & [[Hu ->]|[[Hu (e & He & ->)]|[Hu Hv]]])]; [done..| |].
    + simpl. intros f d [Hin|Hin]%elem_of_app; [by apply Hold|no_event Hin].
    + destruct Hv as (st & ct & body & hdrs & puts & evs & Hf & Hp & ->).
      simpl. intros f d [Hin|Hin]%elem_of_app; [by apply Hold|].
      apply elem_of_cons in Hin as [Hin|Hin]; [discriminate|].
      apply elem_of_app in Hin as [Hin|Hin]; [|no_event Hin].
      destruct (process_assets E args rp _ _ _ _ _ _ _ _ _ f d Hp Hin) as [Hg ->].
      destruct (guess_filename_chars E u hdrs f Hg) as (H1 & H2 & _).
      split; [done|]. split; [done|].
      unfold fetch in Hf. destruct (requests_get E (nreq s1) u) as [m|r] eqn:Hr;
        simpl in Hf; [discriminate|]. injection Hf as <- <- <- <-.
      exists u, (nreq s1), r. split; [|done].
      rewrite fetched_app. apply elem_of_app. right. by left.
Qed.

Lemma assets_have_safe_names_witness :
  py "b.pdf" <> [] /\ Forall (fun c => safe_char c = true) (py "b.pdf").
Proof.
  destruct (assets_have_safe_names Demo.env Demo.args 30 (Demo.after 30)
              (py "b.pdf") (py "%PDF")) as (H1 & H2 & _).
  - vm_compute. reflexivity.
  - apply (list_elem_of_lookup_2 _ 16%nat). vm_compute. reflexivity.
  - exact (conj H1 H2).
Defined.

(** ** Crawling to the end *)

Lemma process_links_enqueued E args rp sn u st ct body hdrs now puts evs p v :
  process E args rp sn u st ct body hdrs now = Return (puts, evs) ->
  EvPage p ∈ evs -> v ∈ links p -> allowed_by_robots E rp v = true ->
  v ∈ sn \/ v ∈ puts.
Proof.
  unfold process. intros H Hp Hv Hr.
  assert (Hnil : links p = [] -> v ∈ sn \/ v ∈ puts).
  { intros Hl. rewrite Hl in Hv. by apply elem_of_nil in Hv. }
  destruct (st =? 200).
  2:{ injection H as <- <-. apply list_elem_of_singleton in Hp. injection Hp as ->. auto. }
  destruct (contains (py "text/html") (lower ct)).
  - destruct (clean_html_to_text E (decode_ignore E body)) as [m|[ttl txt0]];
      simpl in H; [discriminate|].
    destruct (discover_links E u (decode_ignore E body)) as [m|lnks] eqn:Hd;
      simpl in H; [discriminate|].
    injection H as <- <-.
    apply elem_of_cons in Hp as [Hp|Hp];
      [|destruct (nonempty ttl && nonempty _); no_event Hp].
    injection Hp as ->. simpl in Hv.
    destruct (discover_links_in_scope E u _ lnks Hd) as [_ Ha].
    destruct (decide (v ∈ sn)) as [Hin|Hin]; [by left|]. right.
    apply list_elem_of_filter. split; [|done]. unfold enqueue_ok.
    rewrite bool_decide_eq_false_2, (Ha v Hv), Hr by done. done.
  - destruct (contains (py "application/pdf") (lower ct) || endswith (py ".pdf") (lower u)).
    { destruct (guess_filename E u hdrs) as [m|fname]; simpl in H; [discriminate|].
      injection H as <- <-. apply elem_of_cons in Hp as [Hp|Hp]; [discriminate|].
      apply elem_of_cons in Hp as [Hp|Hp]; [injection Hp as ->; auto|]. no_event Hp. }
    destruct (contains _ (lower ct) || endswith (py ".docx") (lower u)).
    { destruct (guess_filename E u hdrs) as [m|fname]; simpl in H; [discriminate|].
      injection H as <- <-. apply elem_of_cons in Hp as [Hp|Hp]; [discriminate|].
      apply elem_of_cons in Hp as [Hp|Hp]; [injection Hp as ->; auto|]. no_event Hp. }
    destruct (include_docs args && _).
    + destruct (guess_filename E u hdrs) as [m|fname]; simpl in H; [discriminate|].
      injection H as <- <-. simpl in Hp.
      apply elem_of_cons in Hp as [Hp|Hp]; [discriminate|].
      apply list_elem_of_singleton in Hp. injection Hp as ->. auto.
    + simpl in H. injection H as <- <-.
      apply list_elem_of_singleton in Hp. injection Hp as ->. auto.
Qed.

(** X22: when the loop ends with an empty queue, the crawl is complete:
    every seed (sitemap or start URL) that passed scope and robots has been
    fetched, and so has every link stored in a page record that robots
    allows. *)
Theorem crawl_is_complete (E : Env) (args : Args) (rp : RobotFileParser)
    (s0 s : State) (fuel : nat) :
  main_init E args = Return (rp, s0) ->
  crawl_loop E args rp fuel s0 = Return s ->
  queue s = [] ->
  (forall u, u ∈ get_sitemap_urls E ++ start args -> seed_ok E rp u = true ->
             u ∈ fetched (log s)) /\
  (forall p u, EvPage p ∈ log s -> u ∈ links p -> allowed_by_robots E rp u = true ->
               u ∈ fetched (log s)).
Proof.
  intros Hi Hl Hq.
  assert (Hseen : seen s = list_to_set (fetched (log s))).
  { apply (seen_fetched_inv E args fuel). unfold main. rewrite Hi. exact Hl. }
  assert (Hinv :
    (forall u, u ∈ get_sitemap_urls E ++ start args -> seed_ok E rp u = true ->
               u ∈ seen s \/ u ∈ queue s) /\
    (forall p u, EvPage p ∈ log s -> u ∈ links p -> allowed_by_robots E rp u = true ->
                 u ∈ seen s \/ u ∈ queue s)).
  { refine (crawl_loop_ind E args rp
              (fun s =>
                 (forall u, u ∈ get_sitemap_urls E ++ start args -> seed_ok E rp u = true ->
                            u ∈ seen s \/ u ∈ queue s) /\
                 (forall p u, EvPage p ∈ log s -> u ∈ links p ->
                              allowed_by_robots E rp u = true ->
                              u ∈ seen s \/ u ∈ queue s))
              fuel s0 s _ _ Hl).
    - destruct (main_init_state E args rp s0 Hi) as (Hq0 & _ & _ & Hlog).
      rewrite Hq0, Hlog. split.
      + intros u Hu Hok. right. apply list_elem_of_filter. by rewrite Hok.
      + intros p u Hp. no_event Hp.
    - intros s1 s2 [IH1 IH2] _ Hb.
      assert (Hmove : forall (u0 : str) (rest : list str) (sn : gset str) (puts : list str) (v : str),
                queue s1 = u0 :: rest -> (forall x, x ∈ seen s1 -> x ∈ sn) -> u0 ∈ sn ->
                v ∈ seen s1 \/ v ∈ queue s1 -> v ∈ sn \/ v ∈ rest ++ puts).
      { intros u0 rest sn puts v Hq1 Hsub Hu0 [Hv|Hv]; [left; auto|].
        rewrite Hq1 in Hv. apply elem_of_cons in Hv as [->|Hv]; [by left|].
        right. apply elem_of_app. by left. }
      destruct (loop_body_cases E args rp s1 s2 Hb)
        as [[_ ->]|(u & rest & Hq1 & [[Hu ->]|[[Hu (e & He & ->)]|[Hu Hv]]])]; [done|..].
      + simpl. split.
        * intros v Hv Hok. destruct (Hmove u rest (seen s1) [] v Hq1) as [?|?]; auto.
          right. by rewrite app_nil_r in *.
        * intros p v Hp Hv Hr. destruct (Hmove u rest (seen s1) [] v Hq1) as [?|?]; eauto.
          right. by rewrite app_nil_r in *.
      + simpl. split.
        * intros v Hv Hok.
          destruct (Hmove u rest ({[u]} ∪ seen s1) [] v Hq1) as [?|?]; auto;
            [set_solver..|]. right. by rewrite app_nil_r in *.
        * intros p v [Hp|Hp]%elem_of_app Hv Hr.
          -- destruct (Hmove u rest ({[u]} ∪ seen s1) [] v Hq1) as [?|?]; eauto;
               [set_solver..|]. right. by rewrite app_nil_r in *.
          -- apply elem_of_cons in Hp as [Hp|Hp]; [discriminate|].
             apply list_elem_of_singleton in Hp. injection Hp as ->.
             simpl in Hv. by apply elem_of_nil in Hv.
      + destruct Hv as (st & ct & body & hdrs & puts & evs & Hf & Hp & ->).
        simpl. split.
        * intros v Hv Hok.
          destruct (Hmove u rest ({[u]} ∪ seen s1) puts v Hq1) as [?|?]; auto;
            set_solver.
        * intros p v [Hin|Hin]%elem_of_app Hv Hr.
          -- destruct (Hmove u rest ({[u]} ∪ seen s1) puts v Hq1) as [?|?]; eauto;
               set_solver.
          -- apply elem_of_cons in Hin as [Hin|Hin]; [discriminate|].
             apply elem_of_app in Hin as [Hin|Hin]; [|no_event Hin].
             destruct (process_links_enqueued _ _ _ _ _ _ _ _ _ _ _ _ p v Hp Hin Hv Hr)
               as [?|?]; [by left|]. right. apply elem_of_app. by right. }
  destruct Hinv as [H1 H2]. rewrite Hq, Hseen in H1, H2. split.
  - intros u Hu Hok. destruct (H1 u Hu Hok) as [H|H]; [|by apply elem_of_nil in H].
    by apply elem_of_list_to_set in H.
  - intros p u Hp Hu Hr. destruct (H2 p u Hp Hu Hr) as [H|H]; [|by apply elem_of_nil in H].
    by apply elem_of_list_to_set in H.
Qed.

Lemma crawl_is_complete_witness :
  Demo.root ∈ fetched (log (Demo.after 30)).
Proof.
  assert (Hi : main_init Demo.env Demo.args = Return (Demo.rp, Demo.s0))
    by (vm_compute; reflexivity).
  assert (Hl : crawl_loop Demo.env Demo.args Demo.rp 30 Demo.s0 = Return (Demo.after 30))
    by (vm_compute; reflexivity).
  assert (Hq : queue (Demo.after 30) = []) by (vm_compute; reflexivity).
  apply (proj1 (crawl_is_complete Demo.env Demo.args Demo.rp Demo.s0 (Demo.after 30) 30
                  Hi Hl Hq)).
  - apply (list_elem_of_lookup_2 _ 0%nat). vm_compute. reflexivity.
  - vm_compute. reflexivity.
Defined.
